(** * The Instagram image discovery-and-acquisition pipeline

    A shallow embedding of
    - [extract_instagram_urls.py]      (URL classifier, URL list persistence),
    - [instagram_scraper_automated.py] (DOM / network-log channels, scrolling),
    - [download_instagram_images.py]   (filenames, retrying session, batch download)
    and the properties of them that the specification states.

    Python [str] values are modelled as [string]: one [ascii] per code point,
    so the model covers the strings whose code points are below 256.  On that
    range [\d] is exactly ["0"]..["9"] and [str.isspace] is the set
    {9..13, 28..31, 32, 133, 160}. *)

From Stdlib Require Import ZArith NArith QArith Qminmax Ascii String List Bool Lia.
From Stdlib Require Import DecimalString DecimalN.
From stdpp Require Import base gmap sets list strings sorting.

Local Open Scope Z_scope.

(** ** Python [str] primitives *)

Module PyStr.

(** [s.startswith(pre)] *)
Definition startswith (s pre : string) : bool := String.prefix pre s.

(** [sub in s] *)
Fixpoint contains (sub s : string) : bool :=
  if String.prefix sub s then true
  else match s with
       | EmptyString => false
       | String _ s' => contains sub s'
       end.

(** [any(p in s for p in patterns)] *)
Definition any_in (patterns : list string) (s : string) : bool :=
  existsb (fun p => contains p s) patterns.

(** [c.isspace()] for a code point below 256 *)
Definition isspace (c : ascii) : bool :=
  let n := N_of_ascii c in
  ((9 <=? n) && (n <=? 13) || (28 <=? n) && (n <=? 32)
   || (n =? 133) || (n =? 160))%N.

(** [c] matches [\d] *)
Definition isdigit (c : ascii) : bool :=
  let n := N_of_ascii c in ((48 <=? n) && (n <=? 57))%N.

Definition digit_val (c : ascii) : Z := Z.of_N (N_of_ascii c) - 48.

(** [int(s)] for a string of decimal digits *)
Definition int_of_digits (s : string) : Z :=
  fold_left (fun acc c => 10 * acc + digit_val c) (list_ascii_of_string s) 0.

(** [s.lstrip()] *)
Fixpoint lstrip (s : string) : string :=
  match s with
  | String c s' => if isspace c then lstrip s' else s
  | EmptyString => EmptyString
  end.

(** [s.rstrip()] *)
Fixpoint rstrip (s : string) : string :=
  match s with
  | String c s' =>
      match rstrip s' with
      | EmptyString => if isspace c then EmptyString else String c EmptyString
      | r => String c r
      end
  | EmptyString => EmptyString
  end.

(** [s.strip()] *)
Definition strip (s : string) : string := rstrip (lstrip s).

(** [s.split(sep)] for a one-character separator: never the empty list. *)
Fixpoint split_char (sep : ascii) (s : string) : list string :=
  match s with
  | EmptyString => [EmptyString]
  | String c s' =>
      if Ascii.eqb c sep then EmptyString :: split_char sep s'
      else match split_char sep s' with
           | w :: ws => String c w :: ws
           | [] => [String c EmptyString]
           end
  end.

(** [s.split()]: maximal runs of non-space characters. *)
Fixpoint split_ws (s : string) : list string :=
  match s with
  | EmptyString => []
  | String c s' =>
      if isspace c then split_ws s'
      else match s' with
           | String c' _ =>
               if isspace c' then String c EmptyString :: split_ws s'
               else match split_ws s' with
                    | w :: ws => String c w :: ws
                    | [] => [String c EmptyString]
                    end
           | EmptyString => [String c EmptyString]
           end
  end.

End PyStr.

(** ** [extract_instagram_urls.py]: the URL classifier *)

Module Classifier.
Import PyStr.

(** The regular expression [[ps](\d{3,4})x\d{3,4}], matched by backtracking
    as [re] does: the greedy [\d{3,4}] first takes four digits and falls
    back to three. *)

(** exactly [n] leading [\d]: the digits and what follows them *)
Fixpoint take_digits (n : nat) (s : string) : option (string * string) :=
  match n with
  | O => Some (EmptyString, s)
  | S n' =>
      match s with
      | String c s' =>
          if isdigit c then
            match take_digits n' s' with
            | Some (d, r) => Some (String c d, r)
            | None => None
            end
          else None
      | EmptyString => None
      end
  end.

(** [x\d{3,4}] at the head of [s] *)
Definition match_x_digits (s : string) : bool :=
  match s with
  | String c s' =>
      if Ascii.eqb c "x" then
        match take_digits 4 s' with
        | Some _ => true
        | None => match take_digits 3 s' with Some _ => true | None => false end
        end
      else false
  | EmptyString => false
  end.

(** [(\d{n})x\d{3,4}] at the head of [s]: group 1 *)
Definition match_dims (n : nat) (s : string) : option string :=
  match take_digits n s with
  | Some (d, r) => if match_x_digits r then Some d else None
  | None => None
  end.

(** the whole pattern anchored at the head of [s]: group 1 *)
Definition match_size_token (s : string) : option string :=
  match s with
  | String c s' =>
      if Ascii.eqb c "p" || Ascii.eqb c "s" then
        match match_dims 4 s' with
        | Some d => Some d
        | None => match_dims 3 s'
        end
      else None
  | EmptyString => None
  end.

(** [re.search(r'[ps](\d{3,4})x\d{3,4}', s)]: group 1 of the leftmost match *)
Fixpoint search_size_token (s : string) : option string :=
  match match_size_token s with
  | Some d => Some d
  | None => match s with
            | String _ s' => search_size_token s'
            | EmptyString => None
            end
  end.

Definition profile_token : string := "/t51.2885-19/".
Definition thumb_tokens : list string :=
  ["_s150x150"; "_s100x100"; "s150x150"; "s100x100"].
Definition post_tokens : list string :=
  ["/t51.82787-15/"; "/t51.75761-15/"; "/t51.71878-15/"].
Definition obvious_thumb_tokens : list string :=
  ["_s150"; "_s100"; "s150x150"; "s100x100"].

(** [is_full_size_image(url)], rule by rule as the source has them. *)
Definition is_full_size_image (url : string) : bool :=
  if contains profile_token url then false
  else if contains "_s150x150" url || contains "_s100x100" url
          || contains "s150x150" url || contains "s100x100" url then false
  else if any_in post_tokens url then true
  else if match search_size_token url with   (* ungrouped search: is there a match *)
          | Some _ =>
              match search_size_token url with (* grouped search: group 1 *)
              | Some g => 640 <=? int_of_digits g
              | None => false
              end
          | None => false
          end then true
  else if (contains "instagram" url || contains "fbcdn.net" url)
          && negb (any_in obvious_thumb_tokens url) then true
  else false.

(** *** Vocabulary of the statements about the classifier *)

(** The test of rule 4: the leftmost size token has a leading dimension
    of at least 640. *)
Definition large_size_token (url : string) : bool :=
  match search_size_token url with
  | Some g => 640 <=? int_of_digits g
  | None => false
  end.

(** the target CDN family of the default rule *)
Definition cdn_family (url : string) : bool :=
  contains "instagram" url || contains "fbcdn.net" url.

(** "contains an embedded size token [ps]<digits>x<digits> whose leading
    dimension is below [bound]" *)
Definition all_digits (s : string) : bool :=
  forallb isdigit (list_ascii_of_string s).

Definition has_size_token_below (bound : Z) (u : string) : Prop :=
  exists (pre : string) (c : ascii) (w h post : string),
    u = pre +:+ String c (w +:+ "x" +:+ h +:+ post)
    /\ (c = "p"%char \/ c = "s"%char)
    /\ w <> "" /\ all_digits w = true
    /\ h <> "" /\ all_digits h = true
    /\ int_of_digits w < bound.

(** "[u] contains the size token [ps]<g>x<h> with 3 or 4 digits each" *)
Definition size_token_in (u g : string) : Prop :=
  exists (pre : string) (c : ascii) (h post : string),
    u = pre +:+ String c (g +:+ String "x" (h +:+ post))
    /\ (c = "p"%char \/ c = "s"%char)
    /\ all_digits g = true /\ (3 <= String.length g <= 4)%nat
    /\ all_digits h = true /\ (3 <= String.length h <= 4)%nat.

End Classifier.

(** ** [instagram_scraper_automated.py]: the two discovery channels *)

Module Scraper.
Import PyStr.

(** What [img.get_attribute(name)] gives: an exception (stale element),
    [None], or the attribute's text. *)
Inductive attr :=
| AttrRaise
| AttrNone
| AttrStr (s : string).

Record img := { src : attr; srcset : attr }.

Definition rejected_patterns : list string :=
  ["_s150x150"; "_s100x100"; "/t51.2885-19/"].

(** The test both channels write inline before [urls.add]:
    [('instagram' in u or 'fbcdn.net' in u)] and then
    [not any(pattern in u for pattern in [...])]. *)
Definition inline_admit (u : string) : bool :=
  (contains "instagram" u || contains "fbcdn.net" u)
  && negb (any_in rejected_patterns u).

(** every member passed the inline test *)
Definition all_admitted (urls : gset string) : Prop :=
  forall u, u ∈ urls -> inline_admit u = true.

Definition add_if_admitted (u : string) (urls : gset string) : gset string :=
  if inline_admit u then {[u]} ∪ urls else urls.

(** The loop over [srcset.split(',')].  [None] is the [IndexError] of
    [src_url.strip().split()[0]] on an entry without a URL; the second
    component is the set as it stands at that point. *)
Fixpoint srcset_loop (entries : list string) (urls : gset string)
  : option unit * gset string :=
  match entries with
  | [] => (Some tt, urls)
  | e :: rest =>
      match split_ws (strip e) with
      | [] => (None, urls)
      | src_url :: _ => srcset_loop rest (add_if_admitted src_url urls)
      end
  end.

(** The loop over [images]; an exception leaves the loop with the set
    built so far. *)
Fixpoint dom_loop (images : list img) (urls : gset string)
  : option unit * gset string :=
  match images with
  | [] => (Some tt, urls)
  | i :: rest =>
      match src i, srcset i with
      | AttrRaise, _ => (None, urls)
      | _, AttrRaise => (None, urls)
      | a, b =>
          let urls1 :=
            match a with
            | AttrStr s =>
                if negb (String.eqb s "") then add_if_admitted s urls else urls
            | _ => urls
            end in
          match b with
          | AttrStr ss =>
              if negb (String.eqb ss "") then
                match srcset_loop (split_char "," ss) urls1 with
                | (Some _, urls2) => dom_loop rest urls2
                | (None, urls2) => (None, urls2)
                end
              else dom_loop rest urls1
          | _ => dom_loop rest urls1
          end
      end
  end.

(** [extract_image_urls_from_dom(driver)]; [images = None] when
    [driver.find_elements] raises.  The [except] clause prints and the
    function returns the set whatever happened. *)
Definition extract_image_urls_from_dom (images : option (list img)) : gset string :=
  match images with
  | None => ∅
  | Some imgs => snd (dom_loop imgs ∅)
  end.

(** One entry of the performance log after [json.loads]:
    a message that makes the body raise (bad JSON, missing key),
    a message of another method, or a [Network.responseReceived] with
    [response.get('url', '')] and [response.get('mimeType', '')]. *)
Inductive log_entry :=
| LogMalformed
| LogOther
| LogResponse (url mime_type : string).

Fixpoint log_loop (logs : list log_entry) (urls : gset string)
  : option unit * gset string :=
  match logs with
  | [] => (Some tt, urls)
  | LogMalformed :: _ => (None, urls)
  | LogOther :: rest => log_loop rest urls
  | LogResponse url mime_type :: rest =>
      if contains "image" mime_type
         && (contains "instagram" url || contains "fbcdn.net" url)
      then if negb (any_in rejected_patterns url)
           then log_loop rest ({[url]} ∪ urls)
           else log_loop rest urls
      else log_loop rest urls
  end.

(** [extract_image_urls_from_network_logs(driver)]; [logs = None] when
    [driver.get_log] raises. *)
Definition extract_image_urls_from_network_logs
    (logs : option (list log_entry)) : gset string :=
  match logs with
  | None => ∅
  | Some l => snd (log_loop l ∅)
  end.

(** The URL set of [scrape_instagram_account]:
    [urls = extract_image_urls_from_dom(driver)] and then
    [urls.update(network_urls)]. *)
Definition discovered_urls (images : option (list img))
    (logs : option (list log_entry)) : gset string :=
  extract_image_urls_from_dom images ∪ extract_image_urls_from_network_logs logs.

(** *** Scrolling *)

(** The scripts and sleeps [scroll_and_load_all] issues. *)
Inductive command :=
| ScrollToBottom                (* window.scrollTo(0, document.body.scrollHeight) *)
| ScrollAboveBottom             (* window.scrollTo(0, document.body.scrollHeight - 1000) *)
| Sleep (seconds : Z).

Definition is_scroll (c : command) : bool :=
  match c with ScrollToBottom | ScrollAboveBottom => true | Sleep _ => false end.

(** A browser session as the function sees it: running a command changes
    the page; reading [document.body.scrollHeight] gives a height (and, for
    a scripted page, moves on in the script). *)
Record browser := {
  page : Type;
  run : command -> page -> page;
  read_height : page -> Z * page
}.

Section Scroll.
Variable B : browser.
Variables (scroll_delay : Z).

(** What is observed, in order: commands and height reads. *)
Inductive event :=
| Cmd (c : command)
| ReadHeight (h : Z).

Record scroll_state := {
  st_page : page B;
  st_trace : list event;     (* most recent last *)
  st_scrolls : nat
}.

Definition issue (c : command) (p : page B) (t : list event) :=
  (run B c p, t ++ [Cmd c]).

Definition measure (p : page B) (t : list event) :=
  let '(h, p') := read_height B p in (h, p', t ++ [ReadHeight h]).

(** The [while scrolls < max_scrolls] loop; [remaining] is
    [max_scrolls - scrolls]. *)
Fixpoint scroll_loop (remaining : nat) (last_height : Z)
    (p : page B) (t : list event) (scrolls : nat) : scroll_state :=
  match remaining with
  | O => {| st_page := p; st_trace := t; st_scrolls := scrolls |}
  | S remaining' =>
      let '(p, t) := issue ScrollToBottom p t in
      let '(p, t) := issue (Sleep scroll_delay) p t in
      let '(new_height, p, t) := measure p t in
      if new_height =? last_height then
        let '(p, t) := issue ScrollAboveBottom p t in
        let '(p, t) := issue (Sleep 1) p t in
        let '(p, t) := issue ScrollToBottom p t in
        let '(p, t) := issue (Sleep scroll_delay) p t in
        let '(new_height, p, t) := measure p t in
        if new_height =? last_height then
          {| st_page := p; st_trace := t; st_scrolls := scrolls |}
        else scroll_loop remaining' new_height p t (S scrolls)
      else scroll_loop remaining' new_height p t (S scrolls)
  end.

(** [scroll_and_load_all(driver, max_scrolls, scroll_delay)] *)
Definition scroll_and_load_all (max_scrolls : nat) (p : page B) : scroll_state :=
  let '(last_height, p, t) := measure p [] in
  scroll_loop max_scrolls last_height p t 0.

Definition scroll_commands (s : scroll_state) : list command :=
  filter (fun c => is_scroll c = true)
         (omap (fun e => match e with Cmd c => Some c | _ => None end) (st_trace s)).
End Scroll.

(** A simulated page that plays back a height sequence: each read gives the
    next height, and the last one stays once the sequence is used up.
    Commands do not change it. *)
Definition scripted_page : browser := {|
  page := list Z;
  run := fun _ hs => hs;
  read_height := fun hs =>
    match hs with
    | [] => (0, [])
    | [h] => (h, [h])
    | h :: rest => (h, rest)
    end
|}.

(** *** Vocabulary of the statements about the channels *)

(** a [srcset] entry without a URL: [src_url.strip().split()] is empty *)
Definition blank_entry (e : string) : bool :=
  match split_ws (strip e) with [] => true | _ :: _ => false end.

(** the leading URL tokens of the entries of a [srcset] *)
Definition srcset_urls (ss : string) : list string :=
  omap (fun e => head (split_ws (strip e))) (split_char "," ss).

(** what an image offers: its [src] and the URLs of its [srcset] *)
Definition img_candidates (i : img) : list string :=
  match src i with AttrStr s => [s] | _ => [] end
  ++ match srcset i with AttrStr ss => srcset_urls ss | _ => [] end.

(** reading the image raises: an attribute cannot be read, or the
    [srcset] has an entry without a URL *)
Definition img_raises (i : img) : bool :=
  match src i, srcset i with
  | AttrRaise, _ => true
  | _, AttrRaise => true
  | _, AttrStr ss =>
      negb (String.eqb ss "") && existsb blank_entry (split_char "," ss)
  | _, AttrNone => false
  end.

(** the URLs of the logged responses with an image type *)
Definition log_candidates (logs : list log_entry) : list string :=
  omap (fun e => match e with
                 | LogResponse url mime_type =>
                     if contains "image" mime_type then Some url else None
                 | _ => None
                 end) logs.

Definition is_malformed (e : log_entry) : bool :=
  match e with LogMalformed => true | _ => false end.

(** *** Vocabulary of the statements about scrolling *)

(** the scroll commands recorded in a trace *)
Definition scrolls_of (t : list event) : list command :=
  filter (fun c => is_scroll c = true)
         (omap (fun e => match e with Cmd c => Some c | _ => None end) t).

(** the heights read, in order *)
Definition heights_of (t : list event) : list Z :=
  omap (fun e => match e with ReadHeight h => Some h | _ => None end) t.


(** How a run that stops on a stable page ends: the height [h], a scroll
    that leaves it at [h], and a nudge that leaves it at [h]. *)
Definition stable_tail (scroll_delay h : Z) : list event :=
  [ ReadHeight h;
    Cmd ScrollToBottom; Cmd (Sleep scroll_delay); ReadHeight h;
    Cmd ScrollAboveBottom; Cmd (Sleep 1);
    Cmd ScrollToBottom; Cmd (Sleep scroll_delay); ReadHeight h ].

End Scraper.

(** ** Text files, and the persisted URL list *)

Module TextFile.
Import PyStr.

Definition LF : ascii := "010"%char.
Definition CR : ascii := "013"%char.
Definition TAB : ascii := "009"%char.

(** Reading in text mode with the default [newline=None]: a lone carriage
    return and a carriage return with its line feed both become one line
    feed. *)
Fixpoint universal_newlines (s : string) : string :=
  match s with
  | EmptyString => EmptyString
  | String c r =>
      if Ascii.eqb c CR then
        match r with
        | String c' r' =>
            if Ascii.eqb c' LF then String LF (universal_newlines r')
            else String LF (universal_newlines r)
        | EmptyString => String LF EmptyString
        end
      else String c (universal_newlines r)
  end.

(** [for line in f]: every line keeps its line feed; the last one may
    lack it. *)
Fixpoint lines (s : string) : list string :=
  match s with
  | EmptyString => []
  | String c r =>
      if Ascii.eqb c LF then String LF EmptyString :: lines r
      else match lines r with
           | l :: ls => String c l :: ls
           | [] => [String c EmptyString]
           end
  end.

(** The lines a Python text file object yields for the stored text [s]. *)
Definition read_lines (s : string) : list string := lines (universal_newlines s).

End TextFile.

Module UrlStore.
Import PyStr TextFile.

(** [sorted(list(urls))] for a [set] of strings: Python compares [str]
    values code point by code point, as [String.le] does. *)
Definition sorted_urls (urls : gset string) : list string :=
  merge_sort String.le (elements urls).

(** [save_urls_to_file(urls, output_file)]: the text written (the file is
    opened with ['w'], so it holds nothing else). *)
Definition save_urls_to_file (urls : list string) : string :=
  fold_left (fun f url => f +:+ (url +:+ String LF EmptyString)) urls EmptyString.

(** The reading loop of [download_images_from_file]. *)
Fixpoint read_loop (ls : list string) (urls : list string) : list string :=
  match ls with
  | [] => urls
  | line :: rest =>
      let url := strip line in
      if negb (String.eqb url "") && startswith url "http"
      then read_loop rest (urls ++ [url])
      else read_loop rest urls
  end.

Definition load_urls (content : string) : list string :=
  read_loop (read_lines content) [].

(** [extract_urls_from_network_export(file_path)] of
    [extract_instagram_urls.py], on the text of the export file. *)
Fixpoint export_loop (ls : list string) (urls : gset string) : gset string :=
  match ls with
  | [] => urls
  | line :: rest =>
      let line := strip line in
      if String.eqb line "" then export_loop rest urls
      else
        match split_char TAB line with
        | _ :: p1 :: _ =>
            let url := strip p1 in
            if negb (startswith url "http") then export_loop rest urls
            else if contains "instagram" url || contains "fbcdn.net" url
                    || contains "cdninstagram.com" url
                 then if Classifier.is_full_size_image url
                      then export_loop rest ({[url]} ∪ urls)
                      else export_loop rest urls
                 else export_loop rest urls
        | _ => export_loop rest urls
        end
  end.

Definition extract_urls_from_network_export (content : string) : list string :=
  sorted_urls (export_loop (read_lines content) ∅).

(** *** Vocabulary of the statements about the URL list *)

(** "[line] of the export gives the URL [u]" *)
Definition export_line_gives (line u : string) : Prop :=
  exists p0 p1 ps,
    split_char TAB (strip line) = p0 :: p1 :: ps
    /\ u = strip p1
    /\ startswith u "http" = true
    /\ Classifier.cdn_family u = true
    /\ Classifier.is_full_size_image u = true.

(** The text of a file of lines: each followed by a line feed. *)
Fixpoint lines_text (ls : list string) : string :=
  match ls with
  | [] => EmptyString
  | l :: rest => l +:+ String LF (lines_text rest)
  end.

Definition no_line_break (u : string) : bool :=
  forallb (fun c => negb (Ascii.eqb c LF) && negb (Ascii.eqb c CR))
          (list_ascii_of_string u).

(** Line breaks occur in trailing white space only. *)
Definition breaks_trailing (s : string) : bool := no_line_break (rstrip s).

Definition no_cr (s : string) : bool :=
  forallb (fun c => negb (Ascii.eqb c CR)) (list_ascii_of_string s).

(** What a URL needs to come back from the file as it went in: it starts
    with [http], has no white space at either end and no line break. *)
Definition storable (u : string) : bool :=
  startswith u "http" && String.eqb (strip u) u && no_line_break u.

End UrlStore.

(** ** Regular expressions as [re] matches them *)

Module Regex.

(** The fragment of the pattern language that [url_pattern] uses:
    literals, sequence, ordered alternatives, the greedy optional group
    and the greedy [+] of a character class. *)
Inductive re :=
| Lit (s : string)
| Cat (a b : re)
| Alt (a b : re)
| Opt (a : re)
| Plus (p : ascii -> bool).

Fixpoint drop_prefix (l s : string) : option string :=
  match l with
  | EmptyString => Some s
  | String c l' =>
      match s with
      | String c' s' => if Ascii.eqb c c' then drop_prefix l' s' else None
      | EmptyString => None
      end
  end.

(** [[class]+] followed by [k]: the longest run first, then shorter ones. *)
Fixpoint plus_class (p : ascii -> bool) (s : string) (k : string -> option string)
  : option string :=
  match s with
  | String c r =>
      if p c then
        match plus_class p r k with
        | Some x => Some x
        | None => k r
        end
      else None
  | EmptyString => None
  end.

(** Backtracking match of [r] at the head of [s], then [k] on what is
    left; the result is that of the first way that succeeds. *)
Fixpoint run (r : re) (s : string) (k : string -> option string) : option string :=
  match r with
  | Lit l => match drop_prefix l s with Some s' => k s' | None => None end
  | Cat a b => run a s (fun s' => run b s' k)
  | Alt a b => match run a s k with Some x => Some x | None => run b s k end
  | Opt a => match run a s k with Some x => Some x | None => k s end
  | Plus p => plus_class p s k
  end.

(** the text matched at the head of [s] *)
Definition match_at (r : re) (s : string) : option string :=
  match run r s Some with
  | Some rest => Some (String.substring 0 (String.length s - String.length rest) s)
  | None => None
  end.

(** [pattern.findall(s)] for a pattern without groups that cannot match
    the empty string: the matches from left to right, each search starting
    where the last match ended; [skip] characters belong to the last
    match. *)
Fixpoint findall_from (r : re) (s : string) (skip : nat) : list string :=
  match s with
  | EmptyString => []
  | String _ rest =>
      match skip with
      | S n => findall_from r rest n
      | O =>
          match match_at r s with
          | Some m => m :: findall_from r rest (String.length m - 1)
          | None => findall_from r rest 0
          end
      end
  end.

Definition findall (r : re) (s : string) : list string := findall_from r s 0.

End Regex.

(** ** [extract_instagram_urls.py]: extraction from free text, and [main] *)

Module TextExtractor.
Import PyStr Regex.

Definition in_chars (cs : string) (c : ascii) : bool :=
  existsb (Ascii.eqb c) (list_ascii_of_string cs).

(** [[^/\s]] *)
Definition host_char (c : ascii) : bool :=
  negb (Ascii.eqb c "/") && negb (isspace c).

(** the class of the tail: any character but white space, [<], [>], the
    double quote, the single quote and the closing parenthesis *)
Definition url_char (c : ascii) : bool :=
  negb (isspace c) && negb (in_chars "<>')" c) && negb (Ascii.eqb c "034").

(** [https?://(?:HOST+\.)?(?:instagram\.(?:com|fbcdn\.net)|fbcdn\.net|cdninstagram\.com)TAIL+]
    with [HOST] the class [host_char] and [TAIL] the class [url_char] *)
Definition url_pattern : re :=
  Cat (Lit "http") (Cat (Opt (Lit "s")) (Cat (Lit "://")
    (Cat (Opt (Cat (Plus host_char) (Lit ".")))
      (Cat (Alt (Cat (Lit "instagram.") (Alt (Lit "com") (Lit "fbcdn.net")))
             (Alt (Lit "fbcdn.net") (Lit "cdninstagram.com")))
           (Plus url_char))))).

(** [s.rstrip(chars)] *)
Fixpoint rstrip_chars (chars s : string) : string :=
  match s with
  | String c s' =>
      match rstrip_chars chars s' with
      | EmptyString => if in_chars chars c then EmptyString else String c EmptyString
      | r => String c r
      end
  | EmptyString => EmptyString
  end.

(** the loop over the matches *)
Fixpoint text_loop (matches : list string) (urls : gset string) : gset string :=
  match matches with
  | [] => urls
  | url :: rest =>
      let url := rstrip_chars ".,;:!?)" url in
      if Classifier.is_full_size_image url
      then text_loop rest ({[url]} ∪ urls)
      else text_loop rest urls
  end.

(** [extract_urls_from_text(file_path)] on the text of the file; [f.read()]
    gives it with universal newlines. *)
Definition extract_urls_from_text (content : string) : list string :=
  UrlStore.sorted_urls
    (text_loop (findall url_pattern (TextFile.universal_newlines content)) ∅).

(** [--method] *)
Inductive method := Network | Text | Auto.

(** The list [main] computes from the text of the input file.  (The
    [except] branch of [auto] covers an exception of the network method;
    on a text that can be read there is none.) *)
Definition extract (m : method) (content : string) : list string :=
  match m with
  | Network => UrlStore.extract_urls_from_network_export content
  | Text => extract_urls_from_text content
  | Auto =>
      let urls := UrlStore.extract_urls_from_network_export content in
      if (length urls <? 5)%nat then extract_urls_from_text content else urls
  end.

(** What [main] writes to the output file: nothing when no URL is found. *)
Definition main_output (m : method) (content : string) : option string :=
  match extract m content with
  | [] => None
  | urls => Some (UrlStore.save_urls_to_file urls)
  end.

(** *** Vocabulary of the statements about text extraction *)

Definition no_space (s : string) : bool :=
  forallb (fun c => negb (isspace c)) (list_ascii_of_string s).

Definition all_chars (P : ascii -> bool) (s : string) : bool :=
  forallb P (list_ascii_of_string s).

(** the texts that [r] describes *)
Fixpoint lang (r : re) (m : string) : Prop :=
  match r with
  | Lit l => m = l
  | Cat a b => exists x y, m = x +:+ y /\ lang a x /\ lang b y
  | Alt a b => lang a m \/ lang b m
  | Opt a => m = "" \/ lang a m
  | Plus p => m <> "" /\ all_chars p m = true
  end.

(** the domains that [url_pattern] names *)
Definition domains : list string :=
  ["instagram.com"; "instagram.fbcdn.net"; "fbcdn.net"; "cdninstagram.com"].

(** "[m] is a URL as [url_pattern] describes it": a scheme, [://], an
    optional host prefix that ends with a dot, one of the domains, and a
    non-empty tail *)
Definition url_shape (m : string) : Prop :=
  exists scheme host domain tail,
    m = scheme +:+ "://" +:+ host +:+ domain +:+ tail
    /\ (scheme = "http" \/ scheme = "https")
    /\ (host = ""
        \/ exists h, host = h +:+ "." /\ h <> "" /\ all_chars host_char h = true)
    /\ In domain domains
    /\ tail <> "" /\ all_chars url_char tail = true.

(** the characters that [extract_urls_from_text] strips from the end *)
Definition trailing_punctuation : string := ".,;:!?)".

(** "the match ends where the URL characters end in [s]" *)
Definition ends_run (rest : string) : Prop :=
  match rest with
  | EmptyString => True
  | String c _ => url_char c = false
  end.

End TextExtractor.

(** ** [instagram_scraper_automated.py]: the file of [scrape_instagram_account] *)

Module ScrapeAccount.

(** What [scrape_instagram_account] writes to [instagram_urls.txt] once the
    page is loaded and scrolled: [sorted(urls)], one URL per line, for the
    set that the two channels found; no file for an empty set. *)
Definition urls_file (images : option (list Scraper.img))
    (logs : option (list Scraper.log_entry)) : option string :=
  let urls := Scraper.discovered_urls images logs in
  if decide (urls = ∅) then None
  else Some (fold_left (fun f url => f +:+ (url +:+ String TextFile.LF EmptyString))
               (UrlStore.sorted_urls urls) EmptyString).

End ScrapeAccount.

(** ** [download_instagram_images.py] *)

Module Downloader.
Import PyStr.

(** *** Filenames *)

(** What the module takes from the interpreter and the standard library:
    [urlparse(url).path] ([None] when [urlparse] raises [ValueError]) and
    the built-in [hash] on [str], which belongs to the running process. *)
Record runtime := {
  urlparse_path : string -> option string;
  str_hash : string -> Z
}.

(** the longest run of [\d] at the head, and the rest *)
Fixpoint span_digits (s : string) : string * string :=
  match s with
  | String c r =>
      if isdigit c then let '(d, t) := span_digits r in (String c d, t)
      else (EmptyString, s)
  | EmptyString => (EmptyString, EmptyString)
  end.

(** [\d+] *)
Definition digits1 (s : string) : option (string * string) :=
  let '(d, r) := span_digits s in
  if String.eqb d "" then None else Some (d, r).

(** one literal character *)
Definition expect (c : ascii) (s : string) : option string :=
  match s with
  | String c' r => if Ascii.eqb c' c then Some r else None
  | EmptyString => None
  end.

(** [(jpg|jpeg|png|webp)], alternatives tried in order *)
Definition match_ext (s : string) : option string :=
  if String.prefix "jpg" s then Some "jpg"
  else if String.prefix "jpeg" s then Some "jpeg"
  else if String.prefix "png" s then Some "png"
  else if String.prefix "webp" s then Some "webp"
  else None.

(** [/(\d+_\d+_\d+_n\.(jpg|jpeg|png|webp))] at the head of [s]: group 1 *)
Definition match_content_id (s : string) : option string :=
  r0 ← expect "/" s;
  '(d1, r1) ← digits1 r0;
  r2 ← expect "_" r1;
  '(d2, r3) ← digits1 r2;
  r4 ← expect "_" r3;
  '(d3, r5) ← digits1 r4;
  r6 ← expect "_" r5;
  r7 ← expect "n" r6;
  r8 ← expect "." r7;
  e ← match_ext r8;
  Some (d1 +:+ "_" +:+ d2 +:+ "_" +:+ d3 +:+ "_n." +:+ e).

(** [re.search] of that pattern: group 1 of the leftmost match *)
Fixpoint search_content_id (s : string) : option string :=
  match match_content_id s with
  | Some g => Some g
  | None => match s with
            | String _ r => search_content_id r
            | EmptyString => None
            end
  end.

(** [os.path.basename(path)] *)
Definition basename (path : string) : string :=
  List.last (split_char "/" path) EmptyString.

(** [str(n)] for a natural number *)
Definition str_of_N (n : N) : string := NilEmpty.string_of_uint (N.to_uint n).

(** [f"{index:04d}"] for a natural number *)
Definition format_04d (index : N) : string :=
  let digits := str_of_N index in
  String.concat "" (replicate (4 - String.length digits) "0") +:+ digits.

(** [get_filename_from_url(url, index=None)]; [None] is the exception of
    [urlparse]. *)
Definition get_filename_from_url (rt : runtime) (url : string) (index : option N)
  : option string :=
  path ← urlparse_path rt url;
  let filename :=
    match search_content_id path with
    | Some g => g
    | None =>
        let filename := basename path in
        if String.eqb filename "" || negb (contains "." filename)
        then "image_" +:+ str_of_N (Z.to_N (str_hash rt url mod 1000000)) +:+ ".jpg"
        else filename
    end in
  Some match index with
       | Some i => format_04d i +:+ "_" +:+ filename
       | None => filename
       end.

(** *** The session *)

(** The [Retry] object of [create_session]. *)
Record retry := {
  total : nat;
  backoff_factor : Q;
  status_forcelist : list Z
}.

Definition retry_strategy : retry :=
  {| total := 3; backoff_factor := 1; status_forcelist := [429; 500; 502; 503; 504] |}.

(** One HTTP exchange as the adapter sees it: no response at all
    (connection failure, timeout), or a response with its status, its
    [Content-Type] header if it has one, and whether the body streams to
    its end. *)
Inductive exchange :=
| TransportError
| Response (status : Z) (content_type : option string) (body_complete : bool).

(** The world outside the process: what the [n]-th request made (counted
    from 0 over the whole run) gets for a URL, and whether a file of a
    given name can be created in the output directory. *)
Record environment := {
  net : nat -> string -> exchange;
  can_create : string -> bool
}.

Inductive event :=
| Request (url : string)        (* one request on the wire *)
| Backoff (seconds : Q)         (* the adapter sleeping between retries *)
| Create (filename : string)    (* open(filepath, 'wb') *)
| Sleep (seconds : Q).          (* time.sleep(delay) of download_image *)

Record world := {
  files : gset string;          (* names present in the output directory *)
  sent : nat;                   (* requests made so far *)
  trace : list event            (* most recent last *)
}.

Definition log (e : event) (w : world) : world :=
  {| files := files w; sent := sent w; trace := trace w ++ [e] |}.

Definition send (env : environment) (url : string) (w : world) : exchange * world :=
  (net env (sent w) url,
   {| files := files w; sent := S (sent w); trace := trace w ++ [Request url] |}).

Definition create (name : string) (w : world) : world :=
  {| files := {[name]} ∪ files w; sent := sent w; trace := trace w ++ [Create name] |}.

Inductive exn :=
| ValueError                    (* urlparse *)
| MaxRetryError                 (* retries used up: RetryError / ConnectionError *)
| HTTPError (status : Z)        (* raise_for_status *)
| OSError                       (* open *)
| StreamError.                  (* the body breaks off in iter_content *)

(** The adapter's wait before a retry, after [errors] failed exchanges in
    a row: none after the first, then [backoff_factor * 2 ** (errors - 1)],
    at most 120 seconds. *)
Definition backoff_time (r : retry) (errors : nat) : Q :=
  if (errors <=? 1)%nat then 0
  else Qmin 120 (backoff_factor r * inject_Z (2 ^ (Z.of_nat errors - 1))).

Definition sleep_backoff (r : retry) (errors : nat) (w : world) : world :=
  let t := backoff_time r errors in
  if Qle_bool t 0 then w else log (Backoff t) w.

(** [session.get(url, timeout=30, stream=True)] through the mounted
    adapter: [left] retries remain, [errors] exchanges have failed. *)
Fixpoint send_with_retries (env : environment) (r : retry) (left errors : nat)
    (url : string) (w : world) : (exn + (Z * option string * bool)) * world :=
  let '(x, w) := send env url w in
  let again :=
    match left with
    | O => (inl MaxRetryError, w)
    | S left' =>
        send_with_retries env r left' (S errors) url (sleep_backoff r (S errors) w)
    end in
  match x with
  | TransportError => again
  | Response status content_type body =>
      if bool_decide (status ∈ status_forcelist r) then again
      else (inr (status, content_type, body), w)
  end.

Definition session_get (env : environment) (url : string) (w : world) :=
  send_with_retries env retry_strategy (total retry_strategy) 0 url w.

(** *** [download_image] *)

Inductive error :=
| Message (text : string)       (* f"Not an image: {content_type}" *)
| Raised (e : exn).             (* str(e) *)

Record outcome := {
  success : bool;
  filename : option string;
  failure : option error
}.

Definition ok (name : string) : outcome :=
  {| success := true; filename := Some name; failure := None |}.
Definition failed_with (e : error) : outcome :=
  {| success := false; filename := None; failure := Some e |}.

Definition download_image (rt : runtime) (env : environment) (url : string)
    (index : option N) (delay : Q) (w : world) : outcome * world :=
  match get_filename_from_url rt url index with
  | None => (failed_with (Raised ValueError), w)
  | Some name =>
      if bool_decide (name ∈ files w) then (ok name, w)
      else
        match session_get env url w with
        | (inl e, w) => (failed_with (Raised e), w)
        | (inr (status, content_type, body), w) =>
            if (400 <=? status) && (status <? 600)
            then (failed_with (Raised (HTTPError status)), w)
            else
              let content_type := default "" content_type in
              if negb (contains "image" content_type)
              then (failed_with (Message ("Not an image: " +:+ content_type)), w)
              else if negb (can_create env name)
              then (failed_with (Raised OSError), w)
              else
                let w := create name w in
                if negb body then (failed_with (Raised StreamError), w)
                else (ok name, log (Sleep delay) w)
        end
  end.

(** *** [download_images_from_file] *)

Record summary := { successful : nat; failed : nat; total_urls : nat }.

(** The [for i, url in enumerate(urls, 1)] loop, with the per-item results
    in the order they are printed. *)
Fixpoint download_loop (rt : runtime) (env : environment) (delay : Q)
    (urls : list string) (i : N) (successful failed : nat)
    (results : list outcome) (w : world) : nat * nat * list outcome * world :=
  match urls with
  | [] => (successful, failed, results, w)
  | url :: rest =>
      let '(o, w) := download_image rt env url (Some i) delay w in
      if success o
      then download_loop rt env delay rest (i + 1)%N (S successful) failed (results ++ [o]) w
      else download_loop rt env delay rest (i + 1)%N successful (S failed) (results ++ [o]) w
  end.

(** The batch over an already read URL list. *)
Definition download_urls (rt : runtime) (env : environment) (delay : Q)
    (urls : list string) (w : world) : option (summary * list outcome) * world :=
  match urls with
  | [] => (None, w)                       (* "No URLs found in file!" *)
  | _ =>
      let '(s, f, results, w) := download_loop rt env delay urls 1%N 0 0 [] w in
      (Some ({| successful := s; failed := f; total_urls := length urls |}, results), w)
  end.

(** [download_images_from_file(urls_file, output_dir, delay)] on the text
    of the URL file and the state of the output directory.  [None]: the
    function returns before the loop and prints no summary. *)
Definition download_images_from_file (rt : runtime) (env : environment)
    (content : string) (delay : Q) (w : world)
  : option (summary * list outcome) * world :=
  download_urls rt env delay (UrlStore.load_urls content) w.

Definition fresh (dir : gset string) : world :=
  {| files := dir; sent := 0; trace := [] |}.

Definition requests_of (t : list event) : list string :=
  omap (fun e => match e with Request u => Some u | _ => None end) t.

Definition n_requests (w : world) : nat := length (requests_of (trace w)).


(** *** Vocabulary of the statements about filenames *)

(** reading a decimal numeral back *)
Definition numeral_value (s : string) : option N :=
  option_map N.of_uint (NilEmpty.uint_of_string s).


(** The name of the URL does not come from [hash]: its path has a content
    id, or a last segment with a dot (or [urlparse] raises). *)
Definition hash_free (rt : runtime) (url : string) : bool :=
  match urlparse_path rt url with
  | Some path =>
      match search_content_id path with
      | Some _ => true
      | None =>
          negb (String.eqb (basename path) "" || negb (contains "." (basename path)))
      end
  | None => true
  end.

Definition count_ok (rs : list outcome) : nat :=
  length (List.filter success rs).
Definition count_failed (rs : list outcome) : nat :=
  length (List.filter (fun o => negb (success o)) rs).


(** The process ends and another one starts on the same output directory:
    the directory and the outside world carry on, the record of events
    starts anew. *)
Definition next_run (w : world) : world :=
  {| files := files w; sent := sent w; trace := [] |}.

Definition is_sleep (e : event) : bool :=
  match e with Sleep _ => true | _ => false end.

(** [w'] comes after [w]: files are only added, and the requests counted
    are the requests recorded. *)
Definition follows (w w' : world) : Prop :=
  files w ⊆ files w'
  /\ (sent w <= sent w')%nat
  /\ (sent w' + n_requests w = sent w + n_requests w')%nat.

End Downloader.

(** ** The interpreter: CPython's [hash] on [str] *)

Module CPython.

(** CPython 3.11 hashes a [str] with SipHash-1-3 over the bytes of its
    buffer (one byte per character when all code points are below 256),
    keyed by the first 16 bytes of the process's hash secret.  The secret
    is drawn afresh for every process unless [PYTHONHASHSEED] fixes it. *)

Definition mask64 : Z := 2 ^ 64 - 1.
Definition add64 (a b : Z) : Z := Z.land (a + b) mask64.
Definition rotl64 (x b : Z) : Z :=
  Z.lor (Z.land (Z.shiftl x b) mask64) (Z.shiftr x (64 - b)).

Definition half_round (a b c d s t : Z) : Z * Z * Z * Z :=
  let a := add64 a b in
  let c := add64 c d in
  let b := Z.lxor (rotl64 b s) a in
  let d := Z.lxor (rotl64 d t) c in
  let a := rotl64 a 32 in
  (a, b, c, d).

Definition single_round (v : Z * Z * Z * Z) : Z * Z * Z * Z :=
  let '(v0, v1, v2, v3) := v in
  let '(v0, v1, v2, v3) := half_round v0 v1 v2 v3 13 16 in
  let '(v2, v1, v0, v3) := half_round v2 v1 v0 v3 17 21 in
  (v0, v1, v2, v3).

Definition absorb (m : Z) (v : Z * Z * Z * Z) : Z * Z * Z * Z :=
  let '(v0, v1, v2, v3) := v in
  let '(v0, v1, v2, v3) := single_round (v0, v1, v2, Z.lxor v3 m) in
  (Z.lxor v0 m, v1, v2, v3).

(** the little-endian value of some bytes *)
Fixpoint le_bytes (bs : list Z) : Z :=
  match bs with
  | [] => 0
  | b :: r => b + 256 * le_bytes r
  end.

(** the whole 8-byte words, and the bytes left over *)
Fixpoint words (n : nat) (bs : list Z) (v : Z * Z * Z * Z)
  : (Z * Z * Z * Z) * list Z :=
  match n with
  | O => (v, bs)
  | S n' =>
      match bs with
      | b0 :: b1 :: b2 :: b3 :: b4 :: b5 :: b6 :: b7 :: r =>
          words n' r (absorb (le_bytes [b0; b1; b2; b3; b4; b5; b6; b7]) v)
      | _ => (v, bs)
      end
  end.

Definition siphash13 (k0 k1 : Z) (bs : list Z) : Z :=
  let v := (Z.lxor k0 0x736f6d6570736575, Z.lxor k1 0x646f72616e646f6d,
            Z.lxor k0 0x6c7967656e657261, Z.lxor k1 0x7465646279746573) in
  let '(v, rest) := words (length bs) bs v in
  let b := Z.lor (Z.land (Z.shiftl (Z.of_nat (length bs)) 56) mask64) (le_bytes rest) in
  let '(v0, v1, v2, v3) := absorb b v in
  let '(v0, v1, v2, v3) :=
    single_round (single_round (single_round (v0, v1, Z.lxor v2 0xff, v3))) in
  Z.lxor (Z.lxor v0 v1) (Z.lxor v2 v3).

(** [hash(s)] in a process whose secret starts with the words [k0], [k1]:
    the empty string hashes to 0, the result is read as a signed 64-bit
    integer, and -1 is replaced by -2. *)
Definition str_hash (k0 k1 : Z) (s : string) : Z :=
  match s with
  | EmptyString => 0
  | _ =>
      let t := siphash13 k0 k1
                 (map (fun c => Z.of_N (N_of_ascii c)) (list_ascii_of_string s)) in
      let x := if 2 ^ 63 <=? t then t - 2 ^ 64 else t in
      if x =? -1 then -2 else x
  end.

(** [urlparse(url).path] on a URL of the plain shape
    [scheme://host/path?query#fragment] with no [;] in its path. *)
Fixpoint after_scheme (s : string) : string :=
  match s with
  | String c r =>
      if String.prefix "://" s then String.substring 3 (String.length s - 3) s
      else after_scheme r
  | EmptyString => EmptyString
  end.

Fixpoint drop_until (stop : ascii -> bool) (s : string) : string :=
  match s with
  | String c r => if stop c then s else drop_until stop r
  | EmptyString => EmptyString
  end.

Fixpoint take_until (stop : ascii -> bool) (s : string) : string :=
  match s with
  | String c r => if stop c then EmptyString else String c (take_until stop r)
  | EmptyString => EmptyString
  end.

Definition one_of (cs : string) (c : ascii) : bool :=
  existsb (Ascii.eqb c) (list_ascii_of_string cs).

Definition plain_url_path (url : string) : option string :=
  Some (take_until (one_of "?#") (drop_until (one_of "/?#") (after_scheme url))).

(** A process with hash secret [k0], [k1]. *)
Definition process (k0 k1 : Z) : Downloader.runtime :=
  {| Downloader.urlparse_path := plain_url_path;
     Downloader.str_hash := str_hash k0 k1 |}.

End CPython.

(** ** Simulated servers *)

Module Scenario.
Import Downloader.

(** A server that answers every request alike; files can be created. *)
Definition always (x : exchange) : environment :=
  {| net := fun _ _ => x; can_create := fun _ => true |}.

(** A server that answers by URL, every time alike; a URL it does not know
    gets no response.  Files can be created. *)
Definition serve (table : list (string * exchange)) : environment :=
  {| net := fun _ url =>
       match find (fun e => String.eqb (fst e) url) table with
       | Some e => snd e
       | None => TransportError
       end;
     can_create := fun _ => true |}.

Definition jpeg_url : string := "https://scontent.cdninstagram.com/v/t51.82787-15/11_22_33_n.jpg".
Definition html_url : string := "https://www.instagram.com/p/Cxyz/".
Definition down_url : string := "https://scontent.cdninstagram.com/v/abc".
Definition gone_url : string := "https://scontent.cdninstagram.com/v/t51.82787-15/44_55_66_n.jpg".


Definition three_servers : environment :=
  serve [ (jpeg_url, Response 200 (Some "image/jpeg") true);
          (html_url, Response 200 (Some "text/html") true);
          (down_url, Response 503 None true);
          (gone_url, Response 404 (Some "text/html") true) ].

End Scenario.

(** * Properties *)

(** ** Facts about the string primitives *)

Section PyStrFacts.
Import PyStr.

Lemma prefix_app_l (a b s : string) :
  String.prefix (a +:+ b) s = true -> String.prefix a s = true.
Proof.
  revert s. induction a as [|c a IH]; intros s H.
  - destruct s; reflexivity.
  - destruct s as [|c' s]; simpl in *; [discriminate|].
    destruct (ascii_dec c c'); [eauto | discriminate].
Qed.

(** A string that has [a ++ b] as a substring has [a] as one. *)
Lemma contains_app_l (a b s : string) :
  contains (a +:+ b) s = true -> contains a s = true.
Proof.
  induction s as [|c s IH]; cbn [contains].
  - destruct (String.prefix (a +:+ b) "") eqn:E; [|intros; discriminate].
    intros _. apply prefix_app_l in E. rewrite E. reflexivity.
  - destruct (String.prefix (a +:+ b) (String c s)) eqn:E.
    + intros _. apply prefix_app_l in E. rewrite E. reflexivity.
    + intros H. rewrite (IH H). destruct (String.prefix a (String c s)); reflexivity.
Qed.

Lemma not_contains_app_l (a b s : string) :
  contains a s = false -> contains (a +:+ b) s = false.
Proof.
  intros H. destruct (contains (a +:+ b) s) eqn:E; [|reflexivity].
  apply contains_app_l in E. congruence.
Qed.

Lemma prefix_app (a s : string) : String.prefix a (a +:+ s) = true.
Proof.
  induction a as [|c a IH]; simpl.
  - destruct s; reflexivity.
  - destruct (ascii_dec c c); [assumption | congruence].
Qed.

Lemma contains_prefix (a s : string) :
  String.prefix a s = true -> contains a s = true.
Proof. intros H. destruct s; cbn [contains]; rewrite H; reflexivity. Qed.

Lemma contains_middle (pre a post : string) : contains a (pre +:+ a +:+ post) = true.
Proof.
  induction pre as [|c pre IH].
  - apply contains_prefix. exact (prefix_app a post).
  - change (String c pre +:+ a +:+ post) with (String c (pre +:+ a +:+ post)).
    cbn [contains]. rewrite IH.
    destruct (String.prefix a (String c (pre +:+ a +:+ post))); reflexivity.
Qed.

End PyStrFacts.

(** ** The classifier *)

Section ClassifierFacts.
Import PyStr Classifier.

(** The verdict, rule by rule. *)
Lemma is_full_size_image_rules (u : string) :
  is_full_size_image u =
    negb (contains profile_token u) && negb (any_in thumb_tokens u)
    && (any_in post_tokens u || large_size_token u
        || cdn_family u && negb (any_in obvious_thumb_tokens u)).
Proof.
  unfold is_full_size_image, large_size_token, cdn_family.
  generalize (any_in post_tokens u) (any_in obvious_thumb_tokens u).
  intros post_rule obvious.
  cbn [any_in thumb_tokens existsb].
  destruct (contains profile_token u); [reflexivity|].
  destruct (contains "_s150x150" u), (contains "_s100x100" u),
    (contains "s150x150" u), (contains "s100x100" u); try reflexivity.
  destruct post_rule; [reflexivity|].
  destruct (search_size_token u) as [g|]; cbn.
  - destruct (640 <=? int_of_digits g); [reflexivity|].
    destruct (_ && _); reflexivity.
  - destruct (_ && _); reflexivity.
Qed.

Lemma obvious_thumb_free (u : string) :
  any_in obvious_thumb_tokens u = false -> any_in thumb_tokens u = false.
Proof.
  cbn [any_in obvious_thumb_tokens thumb_tokens existsb].
  intros H.
  destruct (contains "_s150" u) eqn:E1; [discriminate|].
  destruct (contains "_s100" u) eqn:E2; [discriminate|].
  assert (F1 : contains "_s150x150" u = false)
    by exact (not_contains_app_l "_s150" "x150" u E1).
  assert (F2 : contains "_s100x100" u = false)
    by exact (not_contains_app_l "_s100" "x100" u E2).
  rewrite F1, F2. exact H.
Qed.

End ClassifierFacts.

(** C1, as stated, fails: a URL on an accepted post-image path that also
    carries the thumbnail token [s150x150] is rejected, because the
    thumbnail rule is tested before the path rule. *)
Lemma post_token_with_thumbnail_rejected :
  PyStr.any_in Classifier.post_tokens
    "https://scontent.cdninstagram.com/v/t51.82787-15/1_2_3_n.jpg?stp=dst-jpg_e35_s150x150"
    = true
  /\ Classifier.is_full_size_image
    "https://scontent.cdninstagram.com/v/t51.82787-15/1_2_3_n.jpg?stp=dst-jpg_e35_s150x150"
    = false.
Proof. split; reflexivity. Qed.

(** C1 (amended).  Every URL containing one of the thumbnail tokens
    ([_s150x150], [_s100x100], [s150x150], [s100x100]) is rejected; every URL
    containing one of the post-image path tokens that contains neither the
    profile-picture token nor a thumbnail token is accepted, whatever other
    size token it carries. *)
Theorem thumbnails_rejected_post_paths_accepted (u : string) :
  (PyStr.any_in Classifier.thumb_tokens u = true ->
   Classifier.is_full_size_image u = false)
  /\ (PyStr.any_in Classifier.post_tokens u = true ->
      PyStr.contains Classifier.profile_token u = false ->
      PyStr.any_in Classifier.thumb_tokens u = false ->
      Classifier.is_full_size_image u = true).
Proof.
  rewrite is_full_size_image_rules. split.
  - intros ->. rewrite andb_false_r. reflexivity.
  - intros -> -> ->. reflexivity.
Qed.

Lemma thumbnails_rejected_post_paths_accepted_witness :
  Classifier.is_full_size_image
    "https://scontent.cdninstagram.com/v/t51.2885-15/e35/s150x150/1_2_3_n.jpg" = false
  /\ Classifier.is_full_size_image
    "https://scontent.cdninstagram.com/v/t51.82787-15/1_2_3_n.jpg?stp=dst-jpg_e35_p480x480"
    = true.
Proof.
  split.
  - apply (proj1 (thumbnails_rejected_post_paths_accepted _)). reflexivity.
  - apply (proj2 (thumbnails_rejected_post_paths_accepted _)); reflexivity.
Defined.

(** C10, as stated, fails: a profile picture of the CDN family with a
    [p320x320] token and no thumbnail token is rejected by the first rule. *)
Lemma small_size_token_profile_picture_rejected :
  Classifier.cdn_family "https://scontent.cdninstagram.com/v/t51.2885-19/1_2_3_n.jpg?stp=dst-jpg_p320x320" = true
  /\ Classifier.has_size_token_below 640
       "https://scontent.cdninstagram.com/v/t51.2885-19/1_2_3_n.jpg?stp=dst-jpg_p320x320"
  /\ PyStr.any_in Classifier.obvious_thumb_tokens
       "https://scontent.cdninstagram.com/v/t51.2885-19/1_2_3_n.jpg?stp=dst-jpg_p320x320" = false
  /\ Classifier.is_full_size_image
       "https://scontent.cdninstagram.com/v/t51.2885-19/1_2_3_n.jpg?stp=dst-jpg_p320x320" = false.
Proof.
  split; [reflexivity|]. split; [|split; reflexivity].
  exists "https://scontent.cdninstagram.com/v/t51.2885-19/1_2_3_n.jpg?stp=dst-jpg_",
    "p"%char, "320", "320", "".
  repeat split; try reflexivity; try discriminate. left; reflexivity.
Qed.

(** C10 (amended).  A URL of the CDN family ([instagram] or [fbcdn.net])
    with an embedded size token whose leading dimension is below 640, none
    of [_s150], [_s100], [s150x150], [s100x100], and not the profile-picture
    token [/t51.2885-19/], is accepted: a [p320x320] variant counts as
    full-size. *)
Theorem small_size_token_cdn_accepted (u : string) :
  Classifier.cdn_family u = true ->
  Classifier.has_size_token_below 640 u ->
  PyStr.any_in Classifier.obvious_thumb_tokens u = false ->
  PyStr.contains Classifier.profile_token u = false ->
  Classifier.is_full_size_image u = true.
Proof.
  intros Hcdn _ Hobv Hprof.
  rewrite is_full_size_image_rules, Hprof, (obvious_thumb_free u Hobv), Hcdn, Hobv.
  cbn. apply orb_true_r.
Qed.

Lemma small_size_token_cdn_accepted_witness :
  Classifier.is_full_size_image
    "https://scontent.cdninstagram.com/v/t51.29350-15/p320x320/1_2_3_n.jpg" = true.
Proof.
  apply small_size_token_cdn_accepted; try reflexivity.
  exists "https://scontent.cdninstagram.com/v/t51.29350-15/", "p"%char, "320", "320",
    "/1_2_3_n.jpg".
  repeat split; try reflexivity; try discriminate. left; reflexivity.
Defined.

(** ** The discovery channels *)

Section ScraperFacts.
Import PyStr Classifier Scraper.

Lemma all_admitted_empty : all_admitted ∅.
Proof. intros u Hu. set_solver. Qed.

Lemma all_admitted_union (a b : gset string) :
  all_admitted a -> all_admitted b -> all_admitted (a ∪ b).
Proof. intros Ha Hb u [?|?]%elem_of_union; auto. Qed.

Lemma all_admitted_add (s : string) (urls : gset string) :
  inline_admit s = true -> all_admitted urls -> all_admitted ({[s]} ∪ urls).
Proof.
  intros Hs H u [Hu%elem_of_singleton|Hu]%elem_of_union; [subst; exact Hs | auto].
Qed.

Lemma add_if_admitted_ok (s : string) (urls : gset string) :
  all_admitted urls -> all_admitted (add_if_admitted s urls).
Proof.
  intros H. unfold add_if_admitted.
  destruct (inline_admit s) eqn:E; [apply all_admitted_add; assumption | exact H].
Qed.

Lemma srcset_loop_ok (entries : list string) :
  forall urls, all_admitted urls -> all_admitted (snd (srcset_loop entries urls)).
Proof.
  induction entries as [|e rest IH]; intros urls H; cbn [srcset_loop].
  - exact H.
  - destruct (split_ws (strip e)) as [|src_url ?]; [exact H|].
    apply IH, add_if_admitted_ok, H.
Qed.

Lemma dom_loop_ok (images : list img) :
  forall urls, all_admitted urls -> all_admitted (snd (dom_loop images urls)).
Proof.
  induction images as [|i rest IH]; intros urls H; cbn [dom_loop]; [exact H|].
  destruct (src i) as [| |s]; [exact H| |].
  - destruct (srcset i) as [| |ss]; [exact H|apply IH, H|].
    destruct (negb (String.eqb ss "")); [|apply IH, H].
    pose proof (srcset_loop_ok (split_char "," ss) urls H) as Hs.
    destruct (srcset_loop (split_char "," ss) urls) as [[[]|] urls2];
      [apply IH, Hs | exact Hs].
  - assert (H1 : all_admitted
              (if negb (String.eqb s "") then add_if_admitted s urls else urls))
      by (destruct (negb (String.eqb s "")); [apply add_if_admitted_ok|]; exact H).
    destruct (srcset i) as [| |ss]; [exact H|apply IH, H1|].
    destruct (negb (String.eqb ss "")); [|apply IH, H1].
    pose proof (srcset_loop_ok (split_char "," ss) _ H1) as Hs.
    destruct (srcset_loop (split_char "," ss) _) as [[[]|] urls2];
      [apply IH, Hs | exact Hs].
Qed.

Lemma log_loop_ok (logs : list log_entry) :
  forall urls, all_admitted urls -> all_admitted (snd (log_loop logs urls)).
Proof.
  induction logs as [|[| |url mime] rest IH]; intros urls H; cbn [log_loop];
    [exact H | exact H | apply IH, H |].
  destruct (contains "image" mime); cbn [andb]; [|apply IH, H].
  destruct (contains "instagram" url || contains "fbcdn.net" url) eqn:Ecdn;
    [|apply IH, H].
  destruct (negb (any_in rejected_patterns url)) eqn:Erej; [|apply IH, H].
  apply IH, all_admitted_add; [|exact H].
  unfold inline_admit. rewrite Ecdn, Erej. reflexivity.
Qed.

Lemma discovered_all_admitted images logs :
  all_admitted (discovered_urls images logs).
Proof.
  apply all_admitted_union.
  - destruct images as [imgs|]; [apply dom_loop_ok|]; apply all_admitted_empty.
  - destruct logs as [l|]; [apply log_loop_ok|]; apply all_admitted_empty.
Qed.

(** The inline test is the weaker one on the CDN family ... *)
Lemma classified_then_admitted (u : string) :
  cdn_family u = true -> is_full_size_image u = true -> inline_admit u = true.
Proof.
  rewrite is_full_size_image_rules. unfold inline_admit, cdn_family.
  intros -> H. cbn [andb].
  apply andb_prop in H as [[Hp Ht]%andb_prop _].
  apply negb_true_iff in Hp, Ht. revert Ht.
  cbn [any_in thumb_tokens rejected_patterns existsb].
  fold profile_token. rewrite Hp.
  destruct (contains "_s150x150" u), (contains "_s100x100" u);
    intros; try discriminate; reflexivity.
Qed.

(** ... and the two agree on what has none of the obvious thumbnail tokens. *)
Lemma admitted_then_classified (u : string) :
  inline_admit u = true ->
  any_in obvious_thumb_tokens u = false ->
  is_full_size_image u = true.
Proof.
  unfold inline_admit. intros [Hcdn Hrej%negb_true_iff]%andb_prop Hobv.
  rewrite is_full_size_image_rules, (obvious_thumb_free u Hobv), Hobv.
  unfold cdn_family. rewrite Hcdn.
  revert Hrej. cbn [any_in rejected_patterns existsb]. fold profile_token.
  destruct (contains profile_token u).
  - rewrite !orb_true_r. discriminate.
  - intros _. cbn. apply orb_true_r.
Qed.

End ScraperFacts.

(** C2, as stated, fails: the DOM channel admits a CDN URL with the token
    [s150x150] (no underscore before it), which [is_full_size_image]
    rejects; the inline test and the classifier differ on it. *)
Lemma dom_channel_admits_unclassified :
  "https://scontent.cdninstagram.com/v/t51.29350-15/s150x150/1_2_3_n.jpg"
    ∈ Scraper.discovered_urls
        (Some [ {| Scraper.src := Scraper.AttrStr
                     "https://scontent.cdninstagram.com/v/t51.29350-15/s150x150/1_2_3_n.jpg";
                   Scraper.srcset := Scraper.AttrNone |} ])
        (Some [])
  /\ Scraper.inline_admit
       "https://scontent.cdninstagram.com/v/t51.29350-15/s150x150/1_2_3_n.jpg" = true
  /\ Classifier.is_full_size_image
       "https://scontent.cdninstagram.com/v/t51.29350-15/s150x150/1_2_3_n.jpg" = false.
Proof.
  split; [|split; reflexivity].
  apply (bool_decide_unpack _). vm_compute. exact I.
Qed.

(** C2 (amended).  Every URL that either discovery channel (DOM [src] and
    [srcset] entries, network-response log) admits to the URL set passes the
    test the channels write inline: it contains [instagram] or [fbcdn.net]
    and none of [_s150x150], [_s100x100], [/t51.2885-19/].  The channels do
    not call [is_full_size_image]; an admitted URL passes it whenever it
    contains none of [_s150], [_s100], [s150x150], [s100x100]. *)
Theorem discovered_urls_pass_inline_test
    (images : option (list Scraper.img)) (logs : option (list Scraper.log_entry))
    (u : string) :
  u ∈ Scraper.discovered_urls images logs ->
  Scraper.inline_admit u = true
  /\ (PyStr.any_in Classifier.obvious_thumb_tokens u = false ->
      Classifier.is_full_size_image u = true).
Proof.
  intros Hu. pose proof (discovered_all_admitted images logs u Hu) as Ha.
  split; [exact Ha | apply admitted_then_classified, Ha].
Qed.

Lemma discovered_urls_pass_inline_test_witness :
  Scraper.inline_admit "https://scontent.cdninstagram.com/v/t51.29350-15/1_2_3_n.jpg" = true
  /\ (PyStr.any_in Classifier.obvious_thumb_tokens
        "https://scontent.cdninstagram.com/v/t51.29350-15/1_2_3_n.jpg" = false ->
      Classifier.is_full_size_image
        "https://scontent.cdninstagram.com/v/t51.29350-15/1_2_3_n.jpg" = true).
Proof.
  apply (discovered_urls_pass_inline_test
           (Some [ {| Scraper.src := Scraper.AttrNone;
                      Scraper.srcset := Scraper.AttrStr
                        "https://scontent.cdninstagram.com/v/t51.29350-15/1_2_3_n.jpg 640w, https://scontent.cdninstagram.com/v/t51.29350-15/s150x150/1_2_3_n.jpg 150w" |} ])
           (Some [ Scraper.LogOther ])).
  apply (bool_decide_unpack _). vm_compute. exact I.
Defined.

(** ** Worked examples of filename derivation *)

Example hash_seed0 :
  CPython.str_hash 0 0 "https://scontent.cdninstagram.com/v/abc" = 208219343657323900.
Proof. vm_compute. reflexivity. Qed.
Example path_ex : CPython.plain_url_path "https://scontent.cdninstagram.com/v/abc?x=1#f" = Some "/v/abc".
Proof. vm_compute. reflexivity. Qed.
Example fname_ex : Downloader.get_filename_from_url (CPython.process 0 0)
  "https://scontent.cdninstagram.com/v/t51.82787-15/123_456_789_n.jpg?stp=x" (Some 12%N) = Some "0012_123_456_789_n.jpg".
Proof. vm_compute. reflexivity. Qed.
Example fname_ex2 : Downloader.get_filename_from_url (CPython.process 0 0)
  "https://scontent.cdninstagram.com/v/abc" None = Some "image_323900.jpg".
Proof. vm_compute. reflexivity. Qed.
Example fname_ex3 : Downloader.get_filename_from_url (CPython.process 0 0)
  "https://scontent.cdninstagram.com/v/abc.png" (Some 12345%N) = Some "12345_abc.png".
Proof. vm_compute. reflexivity. Qed.

(** ** Scrolling *)




(** ** The downloader *)

Section DownloaderFacts.
Import PyStr Downloader.

Lemma requests_of_app (a b : list event) :
  requests_of (a ++ b) = requests_of a ++ requests_of b.
Proof. apply omap_app. Qed.

Lemma follows_refl (w : world) : follows w w.
Proof. unfold follows. split; [set_solver | lia]. Qed.

Lemma follows_trans (a b c : world) : follows a b -> follows b c -> follows a c.
Proof.
  unfold follows. intros (F1 & S1 & B1) (F2 & S2 & B2).
  split; [set_solver | lia].
Qed.

Lemma follows_log (e : event) (w : world) :
  (forall u, e <> Request u) -> follows w (log e w).
Proof.
  intros He. unfold follows, n_requests, log; cbn.
  rewrite requests_of_app. cbn.
  destruct e; try (exfalso; eapply He; reflexivity); cbn;
    rewrite app_nil_r; (split; [set_solver | lia]).
Qed.

Lemma follows_send (env : environment) (url : string) (w : world) :
  follows w (snd (send env url w))
  /\ sent (snd (send env url w)) = S (sent w).
Proof.
  unfold follows, n_requests, send; cbn. rewrite requests_of_app, length_app; cbn.
  split; [split; [set_solver | lia] | reflexivity].
Qed.

Lemma follows_sleep_backoff (r : retry) (errors : nat) (w : world) :
  follows w (sleep_backoff r errors w)
  /\ sent (sleep_backoff r errors w) = sent w
  /\ files (sleep_backoff r errors w) = files w.
Proof.
  unfold sleep_backoff. destruct (Qle_bool _ 0).
  - split; [apply follows_refl | split; reflexivity].
  - split; [apply follows_log; discriminate | split; reflexivity].
Qed.

Lemma follows_create (name : string) (w : world) :
  follows w (create name w) /\ sent (create name w) = sent w
  /\ name ∈ files (create name w).
Proof.
  unfold follows, n_requests, create; cbn. rewrite requests_of_app; cbn.
  rewrite app_nil_r. split; [split; [set_solver | lia] | split; [reflexivity | set_solver]].
Qed.

(** The adapter makes at most [left + 1] requests and touches no file. *)
Lemma send_with_retries_follows (env : environment) (r : retry) (url : string)
    (left : nat) :
  forall errors w,
    let w' := snd (send_with_retries env r left errors url w) in
    follows w w' /\ (sent w' <= sent w + S left)%nat /\ files w' = files w.
Proof.
  induction left as [|left IH]; intros errors w; cbn [send_with_retries];
    destruct (follows_send env url w) as [F S1];
    assert (Ff : files (snd (send env url w)) = files w) by reflexivity;
    destruct (send env url w) as [x w1]; cbn [snd] in *.
  - destruct x as [|status ct body]; [|destruct (bool_decide _)]; cbn [snd];
      (split; [exact F | split; [lia | exact Ff]]).
  - destruct (follows_sleep_backoff r (S errors) w1) as (Fb & Sb & Fib).
    specialize (IH (S errors) (sleep_backoff r (S errors) w1)).
    cbv zeta in IH. destruct IH as (F2 & S2 & Fi2).
    assert (G : follows w (snd (send_with_retries env r left (S errors) url
                                  (sleep_backoff r (S errors) w1))))
      by (eapply follows_trans; [exact F | eapply follows_trans; eassumption]).
    destruct x as [|status ct body]; [|destruct (bool_decide _)]; cbn [snd];
      try (split; [exact G | split; [lia | congruence]]).
    split; [exact F | split; [lia | exact Ff]].
Qed.

(** What the adapter records: requests and its own waits, no [Sleep]. *)
Lemma send_with_retries_trace (env : environment) (r : retry) (url : string)
    (left : nat) :
  forall errors w,
    exists evs,
      trace (snd (send_with_retries env r left errors url w)) = trace w ++ evs
      /\ Forall (fun e => is_sleep e = false) evs.
Proof.
  assert (Hsend : forall w, exists evs,
             trace (snd (send env url w)) = trace w ++ evs
             /\ Forall (fun e => is_sleep e = false) evs).
  { intros w. exists [Request url]. split; [reflexivity | repeat constructor]. }
  assert (Hback : forall n w, exists evs,
             trace (sleep_backoff r n w) = trace w ++ evs
             /\ Forall (fun e => is_sleep e = false) evs).
  { intros n w. unfold sleep_backoff. destruct (Qle_bool _ 0).
    - exists []. rewrite app_nil_r. split; [reflexivity | constructor].
    - eexists [_]. split; [reflexivity | repeat constructor]. }
  induction left as [|left IH]; intros errors w; cbn [send_with_retries];
    destruct (Hsend w) as (e1 & T1 & N1);
    destruct (send env url w) as [x w1]; cbn [snd] in *.
  - destruct x as [|status ct body]; [|destruct (bool_decide _)]; cbn [snd]; eauto.
  - destruct (Hback (S errors) w1) as (e2 & T2 & N2).
    destruct (IH (S errors) (sleep_backoff r (S errors) w1)) as (e3 & T3 & N3).
    assert (G : exists evs,
               trace (snd (send_with_retries env r left (S errors) url
                             (sleep_backoff r (S errors) w1))) = trace w ++ evs
               /\ Forall (fun e => is_sleep e = false) evs).
    { exists (e1 ++ e2 ++ e3). split.
      - rewrite T3, T2, T1, <- !app_assoc. reflexivity.
      - repeat (apply Forall_app; split); assumption. }
    destruct x as [|status ct body]; [|destruct (bool_decide _)]; cbn [snd]; eauto.
Qed.

(** One item: the world moves on, at most four requests are made, and a
    success leaves the item's file in the directory. *)
Lemma download_image_follows (rt : runtime) (env : environment) (url : string)
    (index : option N) (delay : Q) (w : world) :
  let o := fst (download_image rt env url index delay w) in
  let w' := snd (download_image rt env url index delay w) in
  follows w w'
  /\ (sent w' <= sent w + 4)%nat
  /\ (success o = true ->
      exists name, get_filename_from_url rt url index = Some name /\ name ∈ files w').
Proof.
  unfold download_image.
  destruct (get_filename_from_url rt url index) as [name|]; cbn [fst snd];
    [|split; [apply follows_refl | split; [lia | discriminate]]].
  destruct (bool_decide (name ∈ files w)) eqn:Eex; cbn [fst snd].
  { apply bool_decide_eq_true in Eex.
    split; [apply follows_refl | split; [lia | eauto]]. }
  unfold session_get. change (total retry_strategy) with 3%nat.
  pose proof (send_with_retries_follows env retry_strategy url 3 0 w) as H.
  cbv zeta in H.
  destruct (send_with_retries env retry_strategy 3 0 url w)
    as [[e|[[status ct] body]] w1]; cbn [fst snd] in *;
    destruct H as (F & S1 & Fi);
    [split; [exact F | split; [lia | discriminate]]|].
  destruct ((400 <=? status) && (status <? 600)); cbn [fst snd];
    [split; [exact F | split; [lia | discriminate]]|].
  destruct (negb (contains "image" (default "" ct))); cbn [fst snd];
    [split; [exact F | split; [lia | discriminate]]|].
  destruct (negb (can_create env name)); cbn [fst snd];
    [split; [exact F | split; [lia | discriminate]]|].
  destruct (follows_create name w1) as (Fc & Sc & Hin).
  assert (G : follows w (create name w1)) by (eapply follows_trans; eassumption).
  destruct (negb body); cbn [fst snd];
    [split; [exact G | split; [lia | discriminate]]|].
  split; [|split].
  - eapply follows_trans; [exact G | apply follows_log; discriminate].
  - cbn. cbn in Sc. lia.
  - intros _. exists name. split; [reflexivity | exact Hin].
Qed.

(** An item whose file is there is a success without any effect. *)
Lemma download_image_skip (rt : runtime) (env : environment) (url : string)
    (index : option N) (delay : Q) (w : world) (name : string) :
  get_filename_from_url rt url index = Some name ->
  name ∈ files w ->
  download_image rt env url index delay w = (ok name, w).
Proof.
  intros Hn Hin. unfold download_image. rewrite Hn.
  rewrite bool_decide_eq_true_2 by exact Hin. reflexivity.
Qed.

Lemma status_unlisted (status : Z) :
  status <> 429 -> status <> 500 -> status <> 502 -> status <> 503 ->
  status <> 504 ->
  status ∉ status_forcelist retry_strategy.
Proof.
  intros ? ? ? ? ? H. cbn in H.
  repeat (apply elem_of_cons in H as [H|H]; [congruence|]).
  inversion H.
Qed.


(** A status outside the configured list comes back after one request. *)
Lemma session_get_no_retry (env : environment) (url : string) (w : world)
    (status : Z) (ct : option string) (body : bool) :
  net env (sent w) url = Response status ct body ->
  status ∉ status_forcelist retry_strategy ->
  session_get env url w = (inr (status, ct, body), snd (send env url w)).
Proof.
  intros Hnet Hst. unfold session_get. cbn [total retry_strategy send_with_retries].
  unfold send at 1. rewrite Hnet.
  rewrite bool_decide_eq_false_2 by exact Hst. reflexivity.
Qed.








(** With an index the name starts with the padded index and an underscore. *)
Lemma filename_index_prefix (rt : runtime) (url : string) (i : N) (name : string) :
  get_filename_from_url rt url (Some i) = Some name ->
  exists f, name = format_04d i +:+ "_" +:+ f.
Proof.
  unfold get_filename_from_url.
  destruct (urlparse_path rt url) as [path|]; cbn; [|discriminate].
  intros [= <-]. eexists. reflexivity.
Qed.

(** Every result is counted once. *)
Lemma count_ok_failed (rs : list outcome) :
  (count_ok rs + count_failed rs = length rs)%nat.
Proof.
  unfold count_ok, count_failed.
  induction rs as [|o rs IH]; cbn; [reflexivity|].
  destruct (success o); cbn; lia.
Qed.


(** The loop gives one result per URL, in order, and counts them. *)
Lemma download_loop_spec (rt : runtime) (env : environment) (delay : Q)
    (urls : list string) :
  forall i s f res w s' f' res' w',
    download_loop rt env delay urls i s f res w = (s', f', res', w') ->
    exists rs,
      res' = res ++ rs
      /\ length rs = length urls
      /\ s' = (s + count_ok rs)%nat
      /\ f' = (f + count_failed rs)%nat
      /\ follows w w'.
Proof.
  induction urls as [|url rest IH]; intros i s f res w s' f' res' w' E;
    cbn [download_loop] in E.
  - injection E as <- <- <- <-. exists []. rewrite app_nil_r.
    unfold count_ok, count_failed. cbn.
    repeat split; try lia. apply follows_refl.
  - pose proof (download_image_follows rt env url (Some i) delay w) as (F & _ & _).
    destruct (download_image rt env url (Some i) delay w) as [o w1].
    cbn [fst snd] in F.
    destruct (success o) eqn:Eo; apply IH in E as (rs & -> & L & -> & -> & F2);
      exists (o :: rs); unfold count_ok, count_failed;
      cbn [List.filter length]; rewrite Eo; cbn [negb length];
      (split; [rewrite <- app_assoc; reflexivity|]);
      (split; [lia|]); (split; [lia|]); (split; [lia|]);
      eapply follows_trans; eassumption.
Qed.

(** A failed item records requests and the adapter's waits only: the
    [time.sleep(delay)] of the success path is not reached. *)
Lemma download_image_failure_no_sleep (rt : runtime) (env : environment)
    (url : string) (index : option N) (delay : Q) (w : world) :
  success (fst (download_image rt env url index delay w)) = false ->
  exists evs,
    trace (snd (download_image rt env url index delay w)) = trace w ++ evs
    /\ Forall (fun e => is_sleep e = false) evs.
Proof.
  unfold download_image.
  destruct (get_filename_from_url rt url index) as [name|]; cbn [fst snd];
    [|intros _; exists []; rewrite app_nil_r; split; [reflexivity | constructor]].
  destruct (bool_decide (name ∈ files w)); cbn [fst snd success ok];
    [discriminate|].
  unfold session_get.
  destruct (send_with_retries_trace env retry_strategy url
              (total retry_strategy) 0 w) as (evs & T & N).
  destruct (send_with_retries env retry_strategy (total retry_strategy) 0 url w)
    as [[e|[[status ct] body]] w1]; cbn [fst snd] in *; [eauto|].
  destruct ((400 <=? status) && (status <? 600)); cbn [fst snd]; [eauto|].
  destruct (negb (contains "image" (default "" ct))); cbn [fst snd]; [eauto|].
  destruct (negb (can_create env name)); cbn [fst snd]; [eauto|].
  destruct (negb body); cbn [fst snd success ok]; [|discriminate].
  intros _. exists (evs ++ [Create name]). cbn. rewrite T, <- app_assoc.
  split; [reflexivity|]. apply Forall_app. split; [exact N | repeat constructor].
Qed.


End DownloaderFacts.



(** ** The batch *)




(** C8: the code at the failing input.  A batch of a non-image answer, a
    404, a URL answered 503 every time and an image: after none of the three
    failed fetches does [download_image] sleep the inter-request delay; the
    next request follows at once.  The only [Sleep] is the one after the
    saved image. *)
Theorem no_delay_after_failed_fetch :
  Downloader.trace
    (snd (Downloader.download_urls (CPython.process 0 0) Scenario.three_servers
            (1 # 2)
            [Scenario.html_url; Scenario.gone_url; Scenario.down_url;
             Scenario.jpeg_url]
            (Downloader.fresh ∅)))
  = [ Downloader.Request Scenario.html_url;
      Downloader.Request Scenario.gone_url;
      Downloader.Request Scenario.down_url;
      Downloader.Request Scenario.down_url; Downloader.Backoff 2;
      Downloader.Request Scenario.down_url; Downloader.Backoff 4;
      Downloader.Request Scenario.down_url;
      Downloader.Request Scenario.jpeg_url;
      Downloader.Create "0004_11_22_33_n.jpg";
      Downloader.Sleep (1 # 2) ].
Proof. vm_compute. reflexivity. Qed.

(** C3: the code at the failing input.  For a URL whose path has neither a
    content id nor an extension, two processes with different hash secrets
    (here the secrets of [PYTHONHASHSEED=0] and [PYTHONHASHSEED=1]) derive
    different filenames from the same URL and index. *)
Theorem hash_fallback_name_differs_between_processes :
  Downloader.get_filename_from_url (CPython.process 0 0)
    "https://scontent.cdninstagram.com/v/abc" (Some 1%N)
  = Some "0001_image_323900.jpg"
  /\ Downloader.get_filename_from_url
       (CPython.process 12598376723466036009 16999324916296290386)
       "https://scontent.cdninstagram.com/v/abc" (Some 1%N)
     = Some "0001_image_518199.jpg".
Proof. split; vm_compute; reflexivity. Qed.




(** ** The persisted URL list *)

Section UrlStoreFacts.
Import PyStr TextFile UrlStore.

Lemma str_app_cons (c : ascii) (s t : string) :
  String c s +:+ t = String c (s +:+ t).
Proof. reflexivity. Qed.

Lemma str_app_nil_l (t : string) : "" +:+ t = t.
Proof. reflexivity. Qed.

Lemma str_app_assoc (a b c : string) : (a +:+ b) +:+ c = a +:+ (b +:+ c).
Proof.
  induction a as [|x a IH]; [reflexivity|].
  rewrite !str_app_cons, IH. reflexivity.
Qed.

Lemma str_app_nil_r (a : string) : a +:+ "" = a.
Proof.
  induction a as [|x a IH]; [reflexivity|]. rewrite str_app_cons, IH. reflexivity.
Qed.

Lemma save_urls_fold (urls : list string) (acc : string) :
  fold_left (fun f url => f +:+ (url +:+ String LF EmptyString)) urls acc
  = acc +:+ lines_text urls.
Proof.
  revert acc. induction urls as [|u rest IH]; intros acc; cbn [fold_left lines_text].
  - rewrite str_app_nil_r. reflexivity.
  - rewrite IH, !str_app_assoc, str_app_cons, str_app_nil_l. reflexivity.
Qed.

Lemma save_urls_text (urls : list string) :
  save_urls_to_file urls = lines_text urls.
Proof. unfold save_urls_to_file. rewrite save_urls_fold. reflexivity. Qed.

Lemma universal_newlines_line (u rest : string) :
  no_line_break u = true ->
  universal_newlines (u +:+ String LF rest) = u +:+ String LF (universal_newlines rest).
Proof.
  unfold no_line_break.
  induction u as [|c u IH]; intros H.
  - reflexivity.
  - cbn [list_ascii_of_string forallb] in H.
    apply andb_prop in H as [[_ Hc]%andb_prop Hu].
    rewrite !str_app_cons. cbn [universal_newlines].
    apply negb_true_iff in Hc. rewrite Hc, (IH Hu). reflexivity.
Qed.

Lemma lines_line (u rest : string) :
  no_line_break u = true ->
  lines (u +:+ String LF rest) = (u +:+ String LF EmptyString) :: lines rest.
Proof.
  unfold no_line_break.
  induction u as [|c u IH]; intros H.
  - reflexivity.
  - cbn [list_ascii_of_string forallb] in H.
    apply andb_prop in H as [[Hc _]%andb_prop Hu].
    rewrite !str_app_cons. cbn [lines].
    apply negb_true_iff in Hc. rewrite Hc, (IH Hu). reflexivity.
Qed.

Lemma read_lines_text (urls : list string) :
  Forall (fun u => no_line_break u = true) urls ->
  read_lines (lines_text urls) = map (fun u => u +:+ String LF EmptyString) urls.
Proof.
  unfold read_lines. induction 1 as [|u rest Hu _ IH]; [reflexivity|].
  cbn [lines_text map].
  rewrite (universal_newlines_line u _ Hu), (lines_line u _ Hu), IH. reflexivity.
Qed.

Lemma rstrip_line (s : string) : rstrip (s +:+ String LF EmptyString) = rstrip s.
Proof.
  induction s as [|c s IH]; [reflexivity|].
  rewrite str_app_cons. cbn [rstrip]. rewrite IH. reflexivity.
Qed.

Lemma strip_line (u : string) :
  startswith u "http" = true ->
  strip u = u ->
  strip (u +:+ String LF EmptyString) = u.
Proof.
  intros Hh Hs. unfold strip in *.
  destruct u as [|c u]; [discriminate|].
  assert (Hc : isspace c = false).
  { unfold startswith in Hh. cbn [String.prefix] in Hh.
    destruct (ascii_dec "h" c) as [<-|]; [reflexivity | discriminate]. }
  rewrite str_app_cons. cbn [lstrip] in *. rewrite Hc in *.
  rewrite <- str_app_cons, rstrip_line. exact Hs.
Qed.

Lemma storable_parts (u : string) :
  storable u = true ->
  startswith u "http" = true /\ strip u = u /\ no_line_break u = true.
Proof.
  unfold storable. intros [[H1 H2%String.eqb_eq]%andb_prop H3]%andb_prop. auto.
Qed.

Lemma read_loop_lines (urls : list string) :
  Forall (fun u => storable u = true) urls ->
  forall acc,
    read_loop (map (fun u => u +:+ String LF EmptyString) urls) acc = acc ++ urls.
Proof.
  induction 1 as [|u rest Hu _ IH]; intros acc; cbn [map read_loop].
  - rewrite app_nil_r. reflexivity.
  - destruct (storable_parts u Hu) as (Hh & Hs & _).
    rewrite (strip_line u Hh Hs), Hh.
    assert (Hne : String.eqb u "" = false)
      by (destruct u; [discriminate | reflexivity]).
    rewrite Hne. cbn [negb andb]. rewrite IH, <- app_assoc. reflexivity.
Qed.

(** Saving a list of storable URLs and loading the file gives the list. *)
Lemma load_save (urls : list string) :
  Forall (fun u => storable u = true) urls ->
  load_urls (save_urls_to_file urls) = urls.
Proof.
  intros H. unfold load_urls.
  rewrite save_urls_text, read_lines_text, (read_loop_lines urls H); [reflexivity|].
  eapply Forall_impl; [exact H|]. intros u Hu. apply (storable_parts u Hu).
Qed.

Lemma sorted_urls_elem (urls : gset string) (u : string) :
  u ∈ sorted_urls urls <-> u ∈ urls.
Proof.
  unfold sorted_urls. rewrite merge_sort_Permutation. apply elem_of_elements.
Qed.

(** *** What the network-export extractor puts into the list *)

Lemma no_line_break_cons (c : ascii) (s : string) :
  no_line_break (String c s)
  = negb (Ascii.eqb c LF) && negb (Ascii.eqb c CR) && no_line_break s.
Proof. reflexivity. Qed.

Lemma rstrip_cases (c : ascii) (s : string) :
  rstrip (String c s) = ""
  \/ rstrip (String c s) = String c ""  /\ rstrip s = ""
  \/ rstrip (String c s) = String c (rstrip s).
Proof.
  cbn [rstrip]. destruct (rstrip s); [destruct (isspace c)|]; auto.
Qed.

Lemma breaks_trailing_tail (c : ascii) (s : string) :
  breaks_trailing (String c s) = true -> breaks_trailing s = true.
Proof.
  unfold breaks_trailing.
  destruct (rstrip_cases c s) as [E|[[E E']|E]]; rewrite E.
  - intros _. cbn [rstrip] in E.
    destruct (rstrip s); [reflexivity | discriminate].
  - intros _. rewrite E'. reflexivity.
  - rewrite no_line_break_cons. intros [_ H]%andb_prop. exact H.
Qed.

Lemma breaks_trailing_cons (c : ascii) (s : string) :
  negb (Ascii.eqb c LF) && negb (Ascii.eqb c CR) = true ->
  breaks_trailing s = true -> breaks_trailing (String c s) = true.
Proof.
  unfold breaks_trailing. intros Hc Hs.
  destruct (rstrip_cases c s) as [E|[[E E']|E]]; rewrite E;
    rewrite ?no_line_break_cons, ?Hc, ?Hs; reflexivity.
Qed.

Lemma no_line_break_trailing (s : string) :
  no_line_break s = true -> breaks_trailing s = true.
Proof.
  induction s as [|c s IH]; [reflexivity|].
  rewrite no_line_break_cons. intros [Hc Hs]%andb_prop.
  apply breaks_trailing_cons; auto.
Qed.

Lemma breaks_trailing_lstrip (s : string) :
  breaks_trailing s = true -> breaks_trailing (lstrip s) = true.
Proof.
  induction s as [|c s IH]; [reflexivity|]. cbn [lstrip].
  destruct (isspace c); [|auto].
  intros H. apply IH, (breaks_trailing_tail c s H).
Qed.

(** Stripping leaves no line break when there were none but trailing ones. *)
Lemma strip_no_line_break (s : string) :
  breaks_trailing s = true -> no_line_break (strip s) = true.
Proof. intros H. apply (breaks_trailing_lstrip s H). Qed.

Lemma rstrip_idem (s : string) : rstrip (rstrip s) = rstrip s.
Proof.
  induction s as [|c s IH]; [reflexivity|].
  destruct (rstrip_cases c s) as [E|[[E E']|E]]; rewrite E.
  - reflexivity.
  - cbn [rstrip] in E |- *. rewrite E' in E.
    destruct (isspace c); [discriminate | reflexivity].
  - cbn [rstrip]. rewrite IH.
    destruct (rstrip s) eqn:R; [|reflexivity].
    cbn [rstrip] in E. rewrite R in E.
    destruct (isspace c); [discriminate | reflexivity].
Qed.

Lemma lstrip_head (s : string) :
  lstrip s = "" \/ exists c r, lstrip s = String c r /\ isspace c = false.
Proof.
  induction s as [|c s IH]; [left; reflexivity|]. cbn [lstrip].
  destruct (isspace c) eqn:E; [exact IH | right; eauto].
Qed.

Lemma strip_idem (s : string) : strip (strip s) = strip s.
Proof.
  unfold strip.
  destruct (lstrip_head s) as [->|(c & r & -> & Hc)]; [reflexivity|].
  assert (H : lstrip (rstrip (String c r)) = rstrip (String c r)).
  { destruct (rstrip_cases c r) as [E|[[E _]|E]]; rewrite E;
      [reflexivity | | ]; cbn [lstrip]; rewrite Hc; reflexivity. }
  rewrite H. apply rstrip_idem.
Qed.

Lemma split_char_no_line_break (sep : ascii) (s : string) :
  no_line_break s = true ->
  Forall (fun p => no_line_break p = true) (split_char sep s).
Proof.
  induction s as [|c s IH]; [repeat constructor|].
  rewrite no_line_break_cons. intros [Hc Hs]%andb_prop.
  specialize (IH Hs). cbn [split_char].
  destruct (Ascii.eqb c sep); [constructor; [reflexivity | exact IH]|].
  destruct (split_char sep s) as [|w ws].
  - repeat constructor. rewrite no_line_break_cons, Hc. reflexivity.
  - inversion IH as [|? ? Hw Hws]; subst. constructor; [|exact Hws].
    rewrite no_line_break_cons, Hc, Hw. reflexivity.
Qed.

Lemma universal_newlines_no_cr (s : string) : no_cr (universal_newlines s) = true.
Proof.
  assert (H : forall n s, (String.length s <= n)%nat ->
                          no_cr (universal_newlines s) = true).
  { clear s. induction n as [|n IH]; intros [|c r] Hl; try reflexivity;
      cbn [String.length] in Hl; [lia|].
    cbn [universal_newlines].
    destruct (Ascii.eqb c CR) eqn:Ec.
    - destruct r as [|c' r']; [reflexivity|].
      destruct (Ascii.eqb c' LF); cbn [no_cr list_ascii_of_string forallb];
        apply andb_true_iff; (split; [reflexivity|]);
        apply IH; cbn [String.length] in *; lia.
    - unfold no_cr. cbn [list_ascii_of_string forallb]. rewrite Ec.
      apply (IH r). lia. }
  apply (H (String.length s)). lia.
Qed.

Lemma lines_breaks_trailing (t : string) :
  no_cr t = true -> Forall (fun l => breaks_trailing l = true) (lines t).
Proof.
  induction t as [|c r IH]; [constructor|].
  unfold no_cr. cbn [list_ascii_of_string forallb].
  intros [Hc Hr]%andb_prop. specialize (IH Hr). cbn [lines].
  destruct (Ascii.eqb c LF) eqn:El; [constructor; [reflexivity | exact IH]|].
  assert (Hok : negb (Ascii.eqb c LF) && negb (Ascii.eqb c CR) = true)
    by (rewrite El, Hc; reflexivity).
  destruct (lines r) as [|l ls].
  - repeat constructor. apply breaks_trailing_cons; [exact Hok | reflexivity].
  - inversion IH as [|? ? Hl Hls]; subst. constructor; [|exact Hls].
    apply breaks_trailing_cons; assumption.
Qed.

Lemma export_loop_storable (ls : list string) :
  Forall (fun l => breaks_trailing l = true) ls ->
  forall urls,
    (forall u, u ∈ urls -> storable u = true) ->
    forall u, u ∈ export_loop ls urls -> storable u = true.
Proof.
  induction 1 as [|line rest Hline _ IH]; intros urls Hurls; cbn [export_loop];
    [exact Hurls|].
  destruct (String.eqb (strip line) ""); [apply IH, Hurls|].
  pose proof (split_char_no_line_break TAB (strip line)
                (strip_no_line_break line Hline)) as Hparts.
  destruct (split_char TAB (strip line)) as [|p0 [|p1 ps]];
    [apply IH, Hurls | apply IH, Hurls |].
  destruct (startswith (strip p1) "http") eqn:Hh; cbn [negb]; [|apply IH, Hurls].
  destruct (_ || _); [|apply IH, Hurls].
  destruct (Classifier.is_full_size_image (strip p1)); [|apply IH, Hurls].
  apply IH. intros u [->%elem_of_singleton|Hu]%elem_of_union; [|auto].
  unfold storable. rewrite Hh, strip_idem, String.eqb_refl. cbn [andb].
  apply strip_no_line_break, no_line_break_trailing.
  inversion Hparts as [|? ? _ Hps]; subst.
  inversion Hps as [|? ? Hp1 _]; subst. exact Hp1.
Qed.

(** X18.  The list that [extract_urls_from_network_export] makes from any
    network export comes back from the file as it went in: saving it with
    [save_urls_to_file] and loading the file with the downloader's reading
    loop gives the same list. *)
Theorem extracted_urls_round_trip (content : string) :
  load_urls (save_urls_to_file (extract_urls_from_network_export content))
  = extract_urls_from_network_export content.
Proof.
  apply load_save, Forall_forall. intros u Hu.
  apply sorted_urls_elem in Hu.
  apply (export_loop_storable (read_lines content)
           (lines_breaks_trailing _ (universal_newlines_no_cr content)) ∅);
    [|exact Hu].
  intros v Hv. exfalso. exact (not_elem_of_empty v Hv).
Qed.

End UrlStoreFacts.

(** C9, as stated, fails: a URL that the classifier (and the network-log
    channel) accepts but that does not start with [http] is written to the
    file and dropped by the loader. *)
Lemma accepted_url_lost_on_load :
  Classifier.is_full_size_image "blob:https://www.instagram.com/7a9e" = true
  /\ UrlStore.sorted_urls {[ "blob:https://www.instagram.com/7a9e" ]}
     = ["blob:https://www.instagram.com/7a9e"]
  /\ UrlStore.load_urls
       (UrlStore.save_urls_to_file
          (UrlStore.sorted_urls {[ "blob:https://www.instagram.com/7a9e" ]}))
     = [].
Proof. repeat split; vm_compute; reflexivity. Qed.

(** C9 (amended).  For every finite set of URLs that start with [http] and
    have no white space at either end and no line break, persisting the set
    (one URL per line, sorted ascending, a line feed after each entry) and
    loading the file gives back the same sequence: the URLs of the set,
    sorted and without duplicates. *)
Theorem persist_then_load (urls : gset string) :
  (forall u, u ∈ urls -> UrlStore.storable u = true) ->
  UrlStore.load_urls (UrlStore.save_urls_to_file (UrlStore.sorted_urls urls))
  = UrlStore.sorted_urls urls
  /\ StronglySorted String.le (UrlStore.sorted_urls urls)
  /\ NoDup (UrlStore.sorted_urls urls)
  /\ (forall u, u ∈ UrlStore.sorted_urls urls <-> u ∈ urls).
Proof.
  intros H. split; [|split; [|split]].
  - apply load_save. apply Forall_forall. intros u Hu.
    apply H, sorted_urls_elem, Hu.
  - apply StronglySorted_merge_sort; apply _.
  - unfold UrlStore.sorted_urls. rewrite merge_sort_Permutation.
    apply NoDup_elements.
  - apply sorted_urls_elem.
Qed.

Lemma persist_then_load_witness :
  UrlStore.load_urls
    (UrlStore.save_urls_to_file
       (UrlStore.sorted_urls
          ({[ "https://scontent.fbcdn.net/v/b.jpg" ]}
           ∪ {[ "https://scontent.cdninstagram.com/v/a.jpg" ]})))
  = UrlStore.sorted_urls
      ({[ "https://scontent.fbcdn.net/v/b.jpg" ]}
       ∪ {[ "https://scontent.cdninstagram.com/v/a.jpg" ]}).
Proof.
  apply (persist_then_load
           ({[ "https://scontent.fbcdn.net/v/b.jpg" ]}
            ∪ {[ "https://scontent.cdninstagram.com/v/a.jpg" ]})).
  intros u [->%elem_of_singleton | ->%elem_of_singleton]%elem_of_union;
    reflexivity.
Defined.

(** * Further properties of the code *)

(** ** The classifier's size-token search *)

Section SizeTokenFacts.
Import PyStr Classifier.

Lemma take_digits_spec (n : nat) :
  forall s d r,
    take_digits n s = Some (d, r) ->
    s = d +:+ r /\ all_digits d = true /\ String.length d = n.
Proof.
  induction n as [|n IH]; intros s d r H; cbn [take_digits] in H.
  - injection H as <- <-. repeat split.
  - destruct s as [|c s]; [discriminate|].
    destruct (isdigit c) eqn:Ec; [|discriminate].
    destruct (take_digits n s) as [[d' r']|] eqn:E; [|discriminate].
    injection H as <- <-. destruct (IH _ _ _ E) as (-> & Hd & Hl).
    rewrite str_app_cons. unfold all_digits in *.
    cbn [list_ascii_of_string forallb String.length]. rewrite Ec, Hd, Hl.
    repeat split.
Qed.

Lemma match_x_digits_spec (s : string) :
  match_x_digits s = true ->
  exists h r, s = String "x" (h +:+ r)
              /\ all_digits h = true /\ (3 <= String.length h <= 4)%nat.
Proof.
  unfold match_x_digits. destruct s as [|c s]; [discriminate|].
  destruct (Ascii.eqb c "x") eqn:Ec; [|discriminate].
  apply Ascii.eqb_eq in Ec as ->.
  destruct (take_digits 4 s) as [[h r]|] eqn:E4.
  - intros _. destruct (take_digits_spec _ _ _ _ E4) as (-> & Hd & Hl).
    exists h, r. rewrite Hl. repeat split; [exact Hd | lia | lia].
  - destruct (take_digits 3 s) as [[h r]|] eqn:E3; [|discriminate].
    intros _. destruct (take_digits_spec _ _ _ _ E3) as (-> & Hd & Hl).
    exists h, r. rewrite Hl. repeat split; [exact Hd | lia | lia].
Qed.

Lemma match_dims_spec (n : nat) (s g : string) :
  match_dims n s = Some g ->
  exists h r, s = g +:+ String "x" (h +:+ r)
              /\ all_digits g = true /\ String.length g = n
              /\ all_digits h = true /\ (3 <= String.length h <= 4)%nat.
Proof.
  unfold match_dims.
  destruct (take_digits n s) as [[d r]|] eqn:E; [|discriminate].
  destruct (match_x_digits r) eqn:Ex; [|discriminate].
  intros [= <-]. destruct (take_digits_spec _ _ _ _ E) as (-> & Hd & Hl).
  destruct (match_x_digits_spec r Ex) as (h & r' & -> & Hh & Hlh).
  exists h, r'. auto.
Qed.

Lemma match_size_token_spec (s g : string) :
  match_size_token s = Some g ->
  exists c h r, s = String c (g +:+ String "x" (h +:+ r))
                /\ (c = "p"%char \/ c = "s"%char)
                /\ all_digits g = true /\ (3 <= String.length g <= 4)%nat
                /\ all_digits h = true /\ (3 <= String.length h <= 4)%nat.
Proof.
  unfold match_size_token. destruct s as [|c s]; [discriminate|].
  destruct (Ascii.eqb c "p" || Ascii.eqb c "s") eqn:Ec; [|discriminate].
  assert (Hc : c = "p"%char \/ c = "s"%char).
  { apply orb_prop in Ec as [E|E]; apply Ascii.eqb_eq in E; auto. }
  intros H.
  assert (exists n, (3 <= n <= 4)%nat /\ match_dims n s = Some g) as (n & Hn & Hm).
  { destruct (match_dims 4 s) as [d|] eqn:E4.
    - injection H as <-. exists 4%nat. split; [lia | exact E4].
    - exists 3%nat. split; [lia | exact H]. }
  destruct (match_dims_spec n s g Hm) as (h & r & -> & Hg & Hl & Hh & Hlh).
  exists c, h, r. rewrite Hl. auto 10.
Qed.

(** What the search returns is a size token of the URL. *)
Lemma search_size_token_sound (u g : string) :
  search_size_token u = Some g -> size_token_in u g.
Proof.
  induction u as [|c u IH]; cbn [search_size_token].
  - cbn. discriminate.
  - destruct (match_size_token (String c u)) as [d|] eqn:E.
    + intros [= <-].
      destruct (match_size_token_spec _ _ E) as (c' & h & r & Hu & Hc & Hrest).
      exists "", c', h, r. rewrite Hu. auto.
    + intros H. destruct (IH H) as (pre & c' & h & post & -> & Hrest).
      exists (String c pre), c', h, post. rewrite str_app_cons. auto.
Qed.

End SizeTokenFacts.

(** X1.  Outside the CDN family the classifier accepts on evidence only: an
    accepted URL without [instagram] and [fbcdn.net] carries one of the
    post-image path tokens, or a size token [ps]<3-4 digits>x<3-4 digits>
    whose leading dimension is at least 640; and in no case does an
    accepted URL carry the profile-picture token or a thumbnail token. *)
Theorem accepted_on_evidence (u : string) :
  Classifier.is_full_size_image u = true ->
  PyStr.contains Classifier.profile_token u = false
  /\ PyStr.any_in Classifier.thumb_tokens u = false
  /\ (Classifier.cdn_family u = false ->
      PyStr.any_in Classifier.post_tokens u = true
      \/ exists g, Classifier.size_token_in u g /\ 640 <= PyStr.int_of_digits g).
Proof.
  rewrite is_full_size_image_rules.
  intros [[Hp Ht]%andb_prop H]%andb_prop.
  apply negb_true_iff in Hp, Ht. split; [exact Hp|]. split; [exact Ht|].
  intros Hcdn. rewrite Hcdn, andb_false_l, orb_false_r in H.
  apply orb_prop in H as [H|H]; [left; exact H|]. right.
  unfold Classifier.large_size_token in H.
  destruct (Classifier.search_size_token u) as [g|] eqn:E; [|discriminate].
  exists g. split; [apply search_size_token_sound, E | apply Z.leb_le, H].
Qed.

Lemma accepted_on_evidence_witness :
  PyStr.contains Classifier.profile_token "https://example.org/img/s1080x1350/a.jpg"
  = false
  /\ PyStr.any_in Classifier.thumb_tokens "https://example.org/img/s1080x1350/a.jpg"
     = false
  /\ (Classifier.cdn_family "https://example.org/img/s1080x1350/a.jpg" = false ->
      PyStr.any_in Classifier.post_tokens "https://example.org/img/s1080x1350/a.jpg"
      = true
      \/ exists g, Classifier.size_token_in "https://example.org/img/s1080x1350/a.jpg" g
                   /\ 640 <= PyStr.int_of_digits g).
Proof.
  apply (accepted_on_evidence "https://example.org/img/s1080x1350/a.jpg").
  reflexivity.
Defined.

(** ** The network-export extractor *)

Section ExportFacts.
Import PyStr TextFile UrlStore.

Lemma prefix_split (a s : string) :
  String.prefix a s = true -> exists post, s = a +:+ post.
Proof.
  revert s. induction a as [|c a IH]; intros s H.
  - exists s. reflexivity.
  - destruct s as [|c' s]; cbn [String.prefix] in H; [discriminate|].
    destruct (ascii_dec c c') as [<-|]; [|discriminate].
    destruct (IH s H) as (post & ->). exists post. reflexivity.
Qed.

Lemma contains_split (a s : string) :
  contains a s = true -> exists pre post, s = pre +:+ a +:+ post.
Proof.
  induction s as [|c s IH]; cbn [contains].
  - destruct (String.prefix a "") eqn:E; [|discriminate].
    intros _. destruct (prefix_split _ _ E) as (post & ->). exists "", post.
    reflexivity.
  - destruct (String.prefix a (String c s)) eqn:E.
    + intros _. destruct (prefix_split _ _ E) as (post & ->). exists "", post.
      reflexivity.
    + intros H. destruct (IH H) as (pre & post & ->).
      exists (String c pre), post. reflexivity.
Qed.

(** A string that has [a ++ b ++ c] as a substring has [b] as one. *)
Lemma contains_inner (a b c s : string) :
  contains (a +:+ b +:+ c) s = true -> contains b s = true.
Proof.
  intros H. destruct (contains_split _ _ H) as (pre & post & ->).
  replace (pre +:+ (a +:+ b +:+ c) +:+ post)
    with ((pre +:+ a) +:+ b +:+ (c +:+ post))
    by (rewrite !str_app_assoc; reflexivity).
  apply contains_middle.
Qed.

(** The third alternative of the extractor's CDN test adds nothing. *)
Lemma export_cdn_test (u : string) :
  contains "instagram" u || contains "fbcdn.net" u || contains "cdninstagram.com" u
  = Classifier.cdn_family u.
Proof.
  unfold Classifier.cdn_family.
  destruct (contains "cdninstagram.com" u) eqn:E; [|apply orb_false_r].
  rewrite (contains_inner "cdn" "instagram" ".com" u E). reflexivity.
Qed.

Lemma export_loop_elem (ls : list string) :
  forall urls u,
    u ∈ export_loop ls urls
    <-> u ∈ urls \/ exists line, line ∈ ls /\ export_line_gives line u.
Proof.
  induction ls as [|line rest IH]; intros urls u; cbn [export_loop].
  - split; [auto|]. intros [H|(l & Hl & _)]; [exact H|]. inversion Hl.
  - assert (Skip : (forall v, ~ export_line_gives line v) ->
                   (u ∈ export_loop rest urls
                    <-> u ∈ urls \/ exists l, l ∈ line :: rest /\ export_line_gives l u)).
    { intros Hno. rewrite IH. split; intros [H|(l & Hl & Hg)]; auto.
      - right. exists l. split; [apply elem_of_cons; auto | exact Hg].
      - apply elem_of_cons in Hl as [->|Hl]; [destruct (Hno _ Hg)|].
        right. eauto. }
    destruct (String.eqb (strip line) "") eqn:Ee.
    { apply Skip. intros v (p0 & p1 & ps & Hs & _).
      apply String.eqb_eq in Ee. rewrite Ee in Hs. discriminate. }
    destruct (split_char TAB (strip line)) as [|p0 [|p1 ps]] eqn:Es.
    { apply Skip. intros v (? & ? & ? & Hs & _). rewrite Es in Hs. discriminate. }
    { apply Skip. intros v (? & ? & ? & Hs & _). rewrite Es in Hs. discriminate. }
    rewrite export_cdn_test.
    assert (Only : forall v, export_line_gives line v -> v = strip p1).
    { intros v (q0 & q1 & qs & Hs & -> & _). rewrite Es in Hs.
      injection Hs as _ <- _. reflexivity. }
    destruct (startswith (strip p1) "http") eqn:Eh; cbn [negb].
    2: { apply Skip. intros v Hv. pose proof (Only v Hv) as ->.
         destruct Hv as (? & ? & ? & _ & _ & Hh & _). congruence. }
    destruct (Classifier.cdn_family (strip p1)) eqn:Ec.
    2: { apply Skip. intros v Hv. pose proof (Only v Hv) as ->.
         destruct Hv as (? & ? & ? & _ & _ & _ & Hc & _). congruence. }
    destruct (Classifier.is_full_size_image (strip p1)) eqn:Ef.
    2: { apply Skip. intros v Hv. pose proof (Only v Hv) as ->.
         destruct Hv as (? & ? & ? & _ & _ & _ & _ & Hf). congruence. }
    rewrite IH, elem_of_union, elem_of_singleton. split.
    + intros [[->|H]|(l & Hl & Hg)]; auto.
      * right. exists line. split; [apply elem_of_cons; auto|].
        exists p0, p1, ps. rewrite Es. auto.
      * right. exists l. split; [apply elem_of_cons; auto | exact Hg].
    + intros [H|(l & Hl & Hg)]; auto.
      apply elem_of_cons in Hl as [->|Hl]; [left; left; apply Only, Hg|].
      right. eauto.
Qed.

End ExportFacts.

(** X2.  [extract_urls_from_network_export] returns exactly the URLs that
    some line of the export gives: the stripped second tab-separated field
    of the stripped line, when it starts with [http], contains [instagram]
    or [fbcdn.net] and passes [is_full_size_image].  Lines with fewer than
    two fields give nothing.  The result is sorted and has no duplicates. *)
Theorem network_export_extracts_exactly (content : string) :
  (forall u,
      u ∈ UrlStore.extract_urls_from_network_export content
      <-> exists line, line ∈ TextFile.read_lines content
                       /\ UrlStore.export_line_gives line u)
  /\ StronglySorted String.le (UrlStore.extract_urls_from_network_export content)
  /\ NoDup (UrlStore.extract_urls_from_network_export content).
Proof.
  unfold UrlStore.extract_urls_from_network_export. split; [|split].
  - intros u. rewrite sorted_urls_elem, export_loop_elem. split.
    + intros [H|H]; [exfalso; exact (not_elem_of_empty u H) | exact H].
    + auto.
  - apply StronglySorted_merge_sort; apply _.
  - unfold UrlStore.sorted_urls. rewrite merge_sort_Permutation.
    apply NoDup_elements.
Qed.

(** ** The URL file as the downloader reads it *)

Section LoadFacts.
Import PyStr TextFile UrlStore.

Lemma read_loop_filter (ls : list string) :
  forall acc,
    read_loop ls acc
    = acc ++ List.filter (fun u => startswith u "http") (map strip ls).
Proof.
  induction ls as [|l rest IH]; intros acc; cbn [read_loop map List.filter].
  - rewrite app_nil_r. reflexivity.
  - destruct (startswith (strip l) "http") eqn:Eh.
    + assert (Hne : String.eqb (strip l) "" = false)
        by (destruct (strip l); [discriminate | reflexivity]).
      rewrite Hne. cbn [negb andb]. rewrite IH, <- app_assoc. reflexivity.
    + rewrite andb_false_r. apply IH.
Qed.

Lemma read_loop_storable (ls : list string) :
  Forall (fun l => breaks_trailing l = true) ls ->
  forall acc,
    Forall (fun u => storable u = true) acc ->
    Forall (fun u => storable u = true) (read_loop ls acc).
Proof.
  induction 1 as [|l rest Hl _ IH]; intros acc Hacc; cbn [read_loop]; [exact Hacc|].
  destruct (negb (String.eqb (strip l) "") && startswith (strip l) "http") eqn:E;
    [|apply IH, Hacc].
  apply IH, Forall_app. split; [exact Hacc|]. constructor; [|constructor].
  apply andb_prop in E as [_ Eh].
  unfold storable. rewrite Eh, strip_idem, String.eqb_refl.
  apply strip_no_line_break, Hl.
Qed.

Lemma load_urls_storable (content : string) :
  Forall (fun u => storable u = true) (load_urls content).
Proof.
  apply read_loop_storable; [|constructor].
  apply lines_breaks_trailing, universal_newlines_no_cr.
Qed.

End LoadFacts.

(** X3.  The downloader's reading of a URL file keeps, in order and with
    repetitions, the stripped lines that start with [http] and drops every
    other line (blank lines, comments, other schemes).  What it keeps is
    stable: writing the loaded list back with [save_urls_to_file] and
    loading again gives the same list. *)
Theorem url_file_loading (content : string) :
  UrlStore.load_urls content
  = List.filter (fun u => PyStr.startswith u "http")
      (map PyStr.strip (TextFile.read_lines content))
  /\ UrlStore.load_urls (UrlStore.save_urls_to_file (UrlStore.load_urls content))
     = UrlStore.load_urls content.
Proof.
  split.
  - unfold UrlStore.load_urls. rewrite read_loop_filter. reflexivity.
  - apply load_save, load_urls_storable.
Qed.

(** ** Scrolling on any page *)

Section ScrollFacts.
Import Scraper.
Variable B : browser.
Variable scroll_delay : Z.

Lemma scroll_commands_trace (r : scroll_state B) :
  scroll_commands B r = scrolls_of (st_trace B r).
Proof. reflexivity. Qed.

Lemma scrolls_of_app (a b : list event) :
  scrolls_of (a ++ b) = scrolls_of a ++ scrolls_of b.
Proof. unfold scrolls_of. rewrite omap_app, filter_app. reflexivity. Qed.

Lemma heights_of_app (a b : list event) :
  heights_of (a ++ b) = heights_of a ++ heights_of b.
Proof. apply omap_app. Qed.



Lemma len_scrolls_cmd (t : list event) (c : command) :
  length (scrolls_of (t ++ [Cmd c]))
  = (length (scrolls_of t) + if is_scroll c then 1 else 0)%nat.
Proof.
  rewrite scrolls_of_app, length_app. f_equal. destruct c; reflexivity.
Qed.

Lemma len_scrolls_read (t : list event) (h : Z) :
  length (scrolls_of (t ++ [ReadHeight h])) = length (scrolls_of t).
Proof. rewrite scrolls_of_app, length_app. cbn. lia. Qed.

Lemma len_heights_cmd (t : list event) (c : command) :
  length (heights_of (t ++ [Cmd c])) = length (heights_of t).
Proof. rewrite heights_of_app, length_app. cbn. lia. Qed.

Lemma len_heights_read (t : list event) (h : Z) :
  length (heights_of (t ++ [ReadHeight h])) = S (length (heights_of t)).
Proof. rewrite heights_of_app, length_app. cbn. lia. Qed.

(** One pass of the loop body up to the first comparison. *)
Lemma scroll_loop_step (n : nat) (last : Z) (p : page B) (t : list event)
    (scrolls : nat) :
  scroll_loop B scroll_delay (S n) last p t scrolls
  = let p1 := run B (Sleep scroll_delay) (run B ScrollToBottom p) in
    let t1 := (t ++ [Cmd ScrollToBottom]) ++ [Cmd (Sleep scroll_delay)] in
    let h1 := fst (read_height B p1) in
    let p2 := snd (read_height B p1) in
    let t2 := t1 ++ [ReadHeight h1] in
    if h1 =? last then
      let p3 := run B (Sleep scroll_delay)
                  (run B ScrollToBottom
                     (run B (Sleep 1) (run B ScrollAboveBottom p2))) in
      let t3 := (((t2 ++ [Cmd ScrollAboveBottom]) ++ [Cmd (Sleep 1)])
                 ++ [Cmd ScrollToBottom]) ++ [Cmd (Sleep scroll_delay)] in
      let h2 := fst (read_height B p3) in
      let p4 := snd (read_height B p3) in
      let t4 := t3 ++ [ReadHeight h2] in
      if h2 =? last
      then {| st_page := p4; st_trace := t4; st_scrolls := scrolls |}
      else scroll_loop B scroll_delay n h2 p4 t4 (S scrolls)
    else scroll_loop B scroll_delay n h1 p2 t2 (S scrolls).
Proof.
  cbn [scroll_loop]. unfold issue, measure. cbv zeta.
  destruct (read_height B (run B (Sleep scroll_delay) (run B ScrollToBottom p)))
    as [h1 p2]. cbn [fst snd].
  destruct (h1 =? last); [|reflexivity].
  destruct (read_height B _) as [h2 p4]. cbn [fst snd]. reflexivity.
Qed.

Lemma scroll_loop_bounds (n : nat) :
  forall last p t scrolls,
    let r := scroll_loop B scroll_delay n last p t scrolls in
    (scrolls <= st_scrolls B r <= scrolls + n)%nat
    /\ (length (scrolls_of (st_trace B r))
        <= length (scrolls_of t) + 3 * n)%nat
    /\ (length (scrolls_of t) + (st_scrolls B r - scrolls)
        <= length (scrolls_of (st_trace B r)))%nat
    /\ (length (heights_of (st_trace B r))
        <= length (heights_of t) + 2 * n)%nat.
Proof.
  induction n as [|n IH]; intros last p t scrolls.
  - cbn [scroll_loop st_scrolls st_trace]. lia.
  - cbv zeta. rewrite scroll_loop_step. cbv zeta.
    destruct (_ =? last).
    + destruct (_ =? last).
      * cbn [st_scrolls st_trace].
        rewrite ?len_scrolls_read, ?len_heights_read, ?len_scrolls_cmd,
          ?len_heights_cmd, ?len_scrolls_read, ?len_heights_read,
          ?len_scrolls_cmd, ?len_heights_cmd.
        cbn [is_scroll]. lia.
      * match goal with |- context [scroll_loop B scroll_delay n ?h ?q ?u ?k] =>
          specialize (IH h q u k); cbv zeta in IH
        end.
        rewrite ?len_scrolls_read, ?len_heights_read, ?len_scrolls_cmd,
          ?len_heights_cmd, ?len_scrolls_read, ?len_heights_read,
          ?len_scrolls_cmd, ?len_heights_cmd in IH.
        cbn [is_scroll] in IH. lia.
    + match goal with |- context [scroll_loop B scroll_delay n ?h ?q ?u ?k] =>
        specialize (IH h q u k); cbv zeta in IH
      end.
      rewrite ?len_scrolls_read, ?len_heights_read, ?len_scrolls_cmd,
        ?len_heights_cmd in IH.
      cbn [is_scroll] in IH. lia.
Qed.

Lemma scroll_loop_early_stop (n : nat) :
  forall last p t0 scrolls,
    let r := scroll_loop B scroll_delay n last p (t0 ++ [ReadHeight last]) scrolls in
    (st_scrolls B r < scrolls + n)%nat ->
    exists pre h, st_trace B r = pre ++ stable_tail scroll_delay h.
Proof.
  induction n as [|n IH]; intros last p t0 scrolls.
  - cbn [scroll_loop st_scrolls st_trace]. lia.
  - cbv zeta. rewrite scroll_loop_step. cbv zeta.
    destruct (_ =? last) eqn:E1.
    + destruct (fst (read_height B (run B (Sleep scroll_delay) _)) =? last) eqn:E2
        in |- *.
      * intros _. apply Z.eqb_eq in E1, E2. rewrite E1, E2.
        exists t0, last. unfold stable_tail. rewrite <- !app_assoc. reflexivity.
      * intros H. apply (IH _ _ _ (S scrolls)). lia.
    + intros H. apply (IH _ _ _ (S scrolls)). lia.
Qed.

End ScrollFacts.

(** X4.  On any page [scroll_and_load_all] stops within the limit: it
    returns at most [max_scrolls] scrolls, issues at least one scroll
    command per counted scroll and at most three per iteration (3 *
    [max_scrolls] in all), and reads the height at most 1 + 2 *
    [max_scrolls] times.  A limit of 0 issues no scroll command at all. *)
Theorem scrolling_is_bounded (B : Scraper.browser) (scroll_delay : Z)
    (max_scrolls : nat) (p : Scraper.page B) :
  let r := Scraper.scroll_and_load_all B scroll_delay max_scrolls p in
  (Scraper.st_scrolls B r <= max_scrolls)%nat
  /\ (Scraper.st_scrolls B r <= length (Scraper.scroll_commands B r)
      <= 3 * max_scrolls)%nat
  /\ (length (Scraper.heights_of (Scraper.st_trace B r)) <= 1 + 2 * max_scrolls)%nat.
Proof.
  cbv zeta. unfold Scraper.scroll_and_load_all, Scraper.measure.
  destruct (Scraper.read_height B p) as [h p'].
  pose proof (scroll_loop_bounds B scroll_delay max_scrolls h p'
                ([] ++ [Scraper.ReadHeight h]) 0) as H.
  cbv zeta in H. rewrite scroll_commands_trace.
  change (length (Scraper.scrolls_of ([] ++ [Scraper.ReadHeight h]))) with 0%nat in H.
  change (length (Scraper.heights_of ([] ++ [Scraper.ReadHeight h]))) with 1%nat in H.
  lia.
Qed.

(** X5.  When [scroll_and_load_all] returns fewer scrolls than the limit,
    it stopped on a stable page: its record ends with a height [h] read
    three times in a row, before the scroll, after it and after the nudge. *)
Theorem early_stop_means_stable (B : Scraper.browser) (scroll_delay : Z)
    (max_scrolls : nat) (p : Scraper.page B) :
  let r := Scraper.scroll_and_load_all B scroll_delay max_scrolls p in
  (Scraper.st_scrolls B r < max_scrolls)%nat ->
  exists pre h,
    Scraper.st_trace B r = pre ++ Scraper.stable_tail scroll_delay h.
Proof.
  cbv zeta. unfold Scraper.scroll_and_load_all, Scraper.measure.
  destruct (Scraper.read_height B p) as [h p']. intros H.
  apply (scroll_loop_early_stop B scroll_delay max_scrolls h p' [] 0). exact H.
Qed.

Lemma early_stop_means_stable_witness :
  exists pre h,
    Scraper.st_trace Scraper.scripted_page
      (Scraper.scroll_and_load_all Scraper.scripted_page 2 50
         [1000; 1400; 1800; 1800])
    = pre ++ Scraper.stable_tail 2 h.
Proof.
  apply (early_stop_means_stable Scraper.scripted_page 2 50
           ([1000; 1400; 1800; 1800] : Scraper.page Scraper.scripted_page)).
  vm_compute. lia.
Defined.

Section GrowingPage.
Import Scraper.


End GrowingPage.



(** ** What the channels take from the page *)

Section ChannelFacts.
Import PyStr Scraper.

Lemma elem_of_add_if_admitted (u s : string) (urls : gset string) :
  u ∈ add_if_admitted s urls <-> u ∈ urls \/ (u = s /\ inline_admit s = true).
Proof.
  unfold add_if_admitted. destruct (inline_admit s) eqn:E.
  - rewrite elem_of_union, elem_of_singleton. tauto.
  - split; [auto | intros [H|[_ H]]; [exact H | discriminate]].
Qed.

Lemma omap_cons_match {A C : Type} (f : A -> option C) (x : A) (l : list A) :
  omap f (x :: l)
  = match f x with Some y => y :: omap f l | None => omap f l end.
Proof. reflexivity. Qed.

(** The loop over the entries of one [srcset]. *)
Lemma srcset_loop_spec (entries : list string) :
  forall urls,
    fst (srcset_loop entries urls)
    = (if existsb blank_entry entries then None else Some tt)
    /\ (forall u, u ∈ snd (srcset_loop entries urls) ->
                  u ∈ urls
                  \/ (u ∈ omap (fun e => head (split_ws (strip e))) entries
                      /\ inline_admit u = true))
    /\ (forall u, u ∈ urls -> u ∈ snd (srcset_loop entries urls))
    /\ (existsb blank_entry entries = false ->
        forall u, u ∈ omap (fun e => head (split_ws (strip e))) entries ->
                  inline_admit u = true ->
                  u ∈ snd (srcset_loop entries urls)).
Proof.
  induction entries as [|e rest IH]; intros urls; cbn [srcset_loop existsb].
  - repeat split; auto. intros _ u Hu. inversion Hu.
  - rewrite omap_cons_match. unfold blank_entry at 1 3.
    destruct (split_ws (strip e)) as [|w ws] eqn:Ew; cbn [fst snd orb head].
    + repeat split; auto. intros; discriminate.
    + destruct (IH (add_if_admitted w urls)) as (I1 & I2 & I3 & I4).
      repeat split.
      * exact I1.
      * intros u Hu. destruct (I2 u Hu) as [H|[H H']].
        -- apply elem_of_add_if_admitted in H as [H|[-> H]]; [auto|].
           right. split; [apply elem_of_cons; auto | exact H].
        -- right. split; [apply elem_of_cons; auto | exact H'].
      * intros u Hu. apply I3, elem_of_add_if_admitted. auto.
      * intros Hb u Hu Ha. apply elem_of_cons in Hu as [->|Hu].
        -- apply I3, elem_of_add_if_admitted. auto.
        -- apply I4; assumption.
Qed.

(** One image: whether reading it raises, and what it adds. *)
Lemma dom_loop_one (i : img) (urls : gset string) :
  fst (dom_loop [i] urls) = (if img_raises i then None else Some tt)
  /\ (forall u, u ∈ snd (dom_loop [i] urls) ->
                u ∈ urls \/ (u ∈ img_candidates i /\ inline_admit u = true))
  /\ (forall u, u ∈ urls -> u ∈ snd (dom_loop [i] urls))
  /\ (img_raises i = false ->
      forall u, u ∈ img_candidates i -> inline_admit u = true ->
                u ∈ snd (dom_loop [i] urls)).
Proof.
  unfold img_candidates, img_raises. cbn [dom_loop].
  assert (Hempty : inline_admit "" = false) by reflexivity.
  destruct (src i) as [| |s] eqn:Es.
  - cbn [fst snd]. repeat split; auto. intros; discriminate.
  - destruct (srcset i) as [| |ss] eqn:Ess; cbn [fst snd app].
    + repeat split; auto. intros; discriminate.
    + repeat split; auto. intros _ u Hu. inversion Hu.
    + destruct (String.eqb ss "") eqn:Eb; cbn [negb andb fst snd].
      * apply String.eqb_eq in Eb as ->. repeat split; auto.
        intros _ u Hu. cbn in Hu. inversion Hu.
      * destruct (srcset_loop_spec (split_char "," ss) urls) as (S1 & S2 & S3 & S4).
        unfold srcset_urls.
        destruct (srcset_loop (split_char "," ss) urls) as [[[]|] urls2];
          cbn [fst snd] in *;
          destruct (existsb blank_entry (split_char "," ss)); try discriminate;
          repeat split; auto; intros; discriminate.
  - set (urls1 := if negb (String.eqb s "") then add_if_admitted s urls else urls).
    assert (H1 : forall u, u ∈ urls1 <-> u ∈ urls \/ (u = s /\ inline_admit s = true)).
    { intros u. unfold urls1. destruct (String.eqb s "") eqn:Eb; cbn [negb].
      - apply String.eqb_eq in Eb as ->. rewrite Hempty.
        split; [auto | intros [H|[_ H]]; [exact H | discriminate]].
      - apply elem_of_add_if_admitted. }
    assert (In1 : forall u, u ∈ urls1 ->
                            u ∈ urls \/ (u ∈ [s] /\ inline_admit u = true)).
    { intros u Hu. apply H1 in Hu as [H|[-> H]]; [auto|].
      right. split; [apply list_elem_of_singleton; reflexivity | exact H]. }
    destruct (srcset i) as [| |ss] eqn:Ess; cbn [fst snd].
    + repeat split; auto. intros; discriminate.
    + rewrite app_nil_r. repeat split.
      * exact In1.
      * intros u Hu. apply H1. auto.
      * intros _ u Hu Ha. apply list_elem_of_singleton in Hu as ->.
        apply H1. auto.
    + destruct (String.eqb ss "") eqn:Eb; cbn [negb andb fst snd].
      * apply String.eqb_eq in Eb as ->. repeat split.
        -- intros u Hu. destruct (In1 u Hu) as [H|[H H']]; [auto|].
           right. split; [apply elem_of_app; auto | exact H'].
        -- intros u Hu. apply H1. auto.
        -- intros _ u Hu Ha. apply elem_of_app in Hu as [Hu|Hu].
           ++ apply list_elem_of_singleton in Hu as ->. apply H1. auto.
           ++ cbn in Hu. inversion Hu.
      * destruct (srcset_loop_spec (split_char "," ss) urls1) as (S1 & S2 & S3 & S4).
        unfold srcset_urls.
        assert (Out : forall u, u ∈ snd (srcset_loop (split_char "," ss) urls1) ->
                  u ∈ urls
                  \/ (u ∈ [s] ++ omap (fun e => head (split_ws (strip e)))
                                  (split_char "," ss)
                      /\ inline_admit u = true)).
        { intros u Hu. destruct (S2 u Hu) as [H|[H H']].
          - destruct (In1 u H) as [?|[? ?]]; [auto|].
            right. split; [apply elem_of_app; auto | assumption].
          - right. split; [apply elem_of_app; auto | exact H']. }
        assert (Keep : forall u, u ∈ urls ->
                  u ∈ snd (srcset_loop (split_char "," ss) urls1)).
        { intros u Hu. apply S3, H1. auto. }
        destruct (srcset_loop (split_char "," ss) urls1) as [[[]|] urls2];
          cbn [fst snd] in *;
          destruct (existsb blank_entry (split_char "," ss)); try discriminate;
          repeat split; auto; try (intros; discriminate).
        intros _ u Hu Ha. apply elem_of_app in Hu as [Hu|Hu].
        -- apply list_elem_of_singleton in Hu as ->. apply S3, H1. auto.
        -- apply S4; auto.
Qed.

(** The loop over the images, image by image. *)
Lemma dom_loop_cons (i : img) (rest : list img) (urls : gset string) :
  dom_loop (i :: rest) urls
  = match dom_loop [i] urls with
    | (Some _, urls1) => dom_loop rest urls1
    | (None, urls1) => (None, urls1)
    end.
Proof.
  cbn [dom_loop].
  destruct (src i) as [| |s]; [reflexivity| |];
    (destruct (srcset i) as [| |ss]; [reflexivity|reflexivity|]);
    (destruct (negb (String.eqb ss "")); [|reflexivity]);
    destruct (srcset_loop _ _) as [[[]|] ?]; reflexivity.
Qed.

Lemma dom_loop_app (imgs1 imgs2 : list img) :
  forall urls,
    dom_loop (imgs1 ++ imgs2) urls
    = match dom_loop imgs1 urls with
      | (Some _, urls1) => dom_loop imgs2 urls1
      | (None, urls1) => (None, urls1)
      end.
Proof.
  induction imgs1 as [|i rest IH]; intros urls; [reflexivity|].
  rewrite <- app_comm_cons, (dom_loop_cons i (rest ++ imgs2)), (dom_loop_cons i rest).
  destruct (dom_loop [i] urls) as [[[]|] urls1]; [apply IH | reflexivity].
Qed.

Lemma dom_loop_sound (imgs : list img) :
  forall urls u,
    u ∈ snd (dom_loop imgs urls) ->
    u ∈ urls \/ (u ∈ concat (map img_candidates imgs) /\ inline_admit u = true).
Proof.
  induction imgs as [|i rest IH]; intros urls u; [cbn; auto|].
  rewrite dom_loop_cons. cbn [map concat].
  destruct (dom_loop_one i urls) as (_ & O2 & _ & _).
  destruct (dom_loop [i] urls) as [[[]|] urls1]; cbn [snd] in *; intros Hu.
  - destruct (IH _ _ Hu) as [H|[H H']].
    + destruct (O2 u H) as [?|[? ?]]; [auto|].
      right. split; [apply elem_of_app; auto | assumption].
    + right. split; [apply elem_of_app; auto | exact H'].
  - destruct (O2 u Hu) as [?|[? ?]]; [auto|].
    right. split; [apply elem_of_app; auto | assumption].
Qed.

Lemma dom_loop_complete (imgs : list img) :
  forallb (fun i => negb (img_raises i)) imgs = true ->
  forall urls,
    fst (dom_loop imgs urls) = Some tt
    /\ forall u,
        (u ∈ urls \/ (u ∈ concat (map img_candidates imgs) /\ inline_admit u = true)) ->
        u ∈ snd (dom_loop imgs urls).
Proof.
  induction imgs as [|i rest IH]; intros Hok urls.
  - split; [reflexivity|]. intros u [H|[H _]]; [exact H | inversion H].
  - cbn [forallb] in Hok. apply andb_prop in Hok as [Hi Hrest].
    apply negb_true_iff in Hi.
    rewrite dom_loop_cons. cbn [map concat].
    destruct (dom_loop_one i urls) as (O1 & _ & O3 & O4).
    rewrite Hi in O1. specialize (O4 Hi).
    destruct (dom_loop [i] urls) as [[[]|] urls1]; cbn [fst snd] in *;
      [|discriminate].
    destruct (IH Hrest urls1) as (I1 & I2). split; [exact I1|].
    intros u [H|[H H']]; [apply I2; auto|].
    apply elem_of_app in H as [H|H]; apply I2; auto.
Qed.

End ChannelFacts.

(** X7.  DOM extraction ends at the first image whose reading raises (an
    attribute that cannot be read, or a [srcset] with an entry that holds
    no URL, such as the one after a trailing comma): the exception is
    caught, the URLs found so far are returned, and no image after that
    one contributes. *)
Theorem dom_extraction_stops_at_raising_image
    (before after : list Scraper.img) (i : Scraper.img) :
  Scraper.img_raises i = true ->
  Scraper.extract_image_urls_from_dom (Some (before ++ i :: after))
  = Scraper.extract_image_urls_from_dom (Some (before ++ [i])).
Proof.
  intros Hi. unfold Scraper.extract_image_urls_from_dom.
  rewrite !dom_loop_app.
  destruct (Scraper.dom_loop before ∅) as [[[]|] urls1]; [|reflexivity].
  rewrite (dom_loop_cons i after).
  destruct (dom_loop_one i urls1) as (O1 & _). rewrite Hi in O1.
  destruct (Scraper.dom_loop [i] urls1) as [[[]|] urls2]; cbn [fst] in O1;
    [discriminate | reflexivity].
Qed.

Lemma dom_extraction_stops_at_raising_image_witness :
  Scraper.extract_image_urls_from_dom
    (Some ([] ++ {| Scraper.src := Scraper.AttrNone;
                    Scraper.srcset := Scraper.AttrStr
                      "https://scontent.cdninstagram.com/a.jpg 640w," |}
              :: [ {| Scraper.src := Scraper.AttrStr
                        "https://scontent.cdninstagram.com/b.jpg";
                      Scraper.srcset := Scraper.AttrNone |} ]))
  = Scraper.extract_image_urls_from_dom
      (Some ([] ++ [ {| Scraper.src := Scraper.AttrNone;
                        Scraper.srcset := Scraper.AttrStr
                          "https://scontent.cdninstagram.com/a.jpg 640w," |} ])).
Proof.
  apply dom_extraction_stops_at_raising_image. reflexivity.
Defined.

(** X8.  What DOM extraction returns comes from the page: every URL it
    returns is the [src] of an image or the leading token of one of its
    [srcset] entries, and passes the inline test.  When no image raises,
    it returns all of those. *)
Theorem dom_extraction_exact (imgs : list Scraper.img) (u : string) :
  (u ∈ Scraper.extract_image_urls_from_dom (Some imgs) ->
   u ∈ concat (map Scraper.img_candidates imgs) /\ Scraper.inline_admit u = true)
  /\ (forallb (fun i => negb (Scraper.img_raises i)) imgs = true ->
      u ∈ concat (map Scraper.img_candidates imgs) ->
      Scraper.inline_admit u = true ->
      u ∈ Scraper.extract_image_urls_from_dom (Some imgs)).
Proof.
  unfold Scraper.extract_image_urls_from_dom. split.
  - intros Hu. destruct (dom_loop_sound imgs ∅ u Hu) as [H|H]; [|exact H].
    exfalso. exact (not_elem_of_empty u H).
  - intros Hok Hc Ha. apply (dom_loop_complete imgs Hok ∅). auto.
Qed.

Lemma dom_extraction_exact_witness :
  "https://scontent.cdninstagram.com/a.jpg"
    ∈ Scraper.extract_image_urls_from_dom
        (Some [ {| Scraper.src := Scraper.AttrStr "";
                   Scraper.srcset := Scraper.AttrStr
                     "https://scontent.cdninstagram.com/a.jpg 640w, https://scontent.cdninstagram.com/b.jpg 1080w" |} ]).
Proof.
  apply (proj2 (dom_extraction_exact _ _)); try reflexivity.
  apply (bool_decide_unpack _). vm_compute. exact I.
Defined.

Section LogFacts.
Import PyStr Scraper.

Lemma log_loop_app (l1 l2 : list log_entry) :
  forall urls,
    log_loop (l1 ++ l2) urls
    = match log_loop l1 urls with
      | (Some _, urls1) => log_loop l2 urls1
      | (None, urls1) => (None, urls1)
      end.
Proof.
  induction l1 as [|[| |url mime] rest IH]; intros urls; cbn [log_loop app].
  - destruct (log_loop l2 urls) as [[[]|] ?]; reflexivity.
  - reflexivity.
  - apply IH.
  - destruct (contains "image" mime && _); [|apply IH].
    destruct (negb _); apply IH.
Qed.

Lemma log_loop_sound (logs : list log_entry) :
  forall urls u,
    u ∈ snd (log_loop logs urls) ->
    u ∈ urls \/ (u ∈ log_candidates logs /\ inline_admit u = true).
Proof.
  induction logs as [|[| |url mime] rest IH]; intros urls u; cbn [log_loop];
    [cbn; auto | cbn; auto | apply IH |].
  unfold log_candidates. rewrite omap_cons_match. fold (log_candidates rest).
  destruct (contains "image" mime); cbn [andb]; [|apply IH].
  destruct (contains "instagram" url || contains "fbcdn.net" url) eqn:Ec.
  - destruct (negb (any_in rejected_patterns url)) eqn:Er; intros Hu.
    + destruct (IH _ _ Hu) as [H|[H H']].
      * apply elem_of_union in H as [->%elem_of_singleton|H]; [|auto].
        right. split; [apply elem_of_cons; auto|].
        unfold inline_admit. rewrite Ec, Er. reflexivity.
      * right. split; [apply elem_of_cons; auto | exact H'].
    + destruct (IH _ _ Hu) as [H|[H H']]; [auto|].
      right. split; [apply elem_of_cons; auto | exact H'].
  - intros Hu. destruct (IH _ _ Hu) as [H|[H H']]; [auto|].
    right. split; [apply elem_of_cons; auto | exact H'].
Qed.

Lemma log_loop_complete (logs : list log_entry) :
  existsb is_malformed logs = false ->
  forall urls u,
    (u ∈ urls \/ (u ∈ log_candidates logs /\ inline_admit u = true)) ->
    u ∈ snd (log_loop logs urls).
Proof.
  induction logs as [|[| |url mime] rest IH]; intros Hok urls u; cbn [log_loop].
  - intros [H|[H _]]; [exact H | inversion H].
  - discriminate.
  - apply (IH Hok).
  - cbn [existsb is_malformed orb] in Hok. specialize (IH Hok).
    unfold log_candidates. rewrite omap_cons_match. fold (log_candidates rest).
    destruct (contains "image" mime); cbn [andb]; [|apply IH].
    unfold inline_admit at 1.
    destruct (contains "instagram" url || contains "fbcdn.net" url) eqn:Ec;
      [destruct (negb (any_in rejected_patterns url)) eqn:Er|].
    + intros [H|[H H']]; apply IH.
      * left. apply elem_of_union. auto.
      * apply elem_of_cons in H as [->|H]; [|auto].
        left. apply elem_of_union. left. apply elem_of_singleton. reflexivity.
    + intros [H|[H H']]; apply IH; [auto|].
      apply elem_of_cons in H as [->|H]; [|auto].
      unfold inline_admit in H'. rewrite Ec, Er in H'. discriminate.
    + intros [H|[H H']]; apply IH; [auto|].
      apply elem_of_cons in H as [->|H]; [|auto].
      unfold inline_admit in H'. rewrite Ec in H'. discriminate.
Qed.

End LogFacts.

(** X9.  What the network-log channel returns comes from the log: every
    URL it returns was logged in a [Network.responseReceived] message with
    an image type and passes the inline test; when no message makes the
    loop raise it returns all of those; and a message that raises ends the
    channel with what was found before it. *)
Theorem log_extraction_exact (logs : list Scraper.log_entry) :
  (forall u,
      u ∈ Scraper.extract_image_urls_from_network_logs (Some logs) ->
      u ∈ Scraper.log_candidates logs /\ Scraper.inline_admit u = true)
  /\ (existsb Scraper.is_malformed logs = false ->
      forall u,
        u ∈ Scraper.log_candidates logs -> Scraper.inline_admit u = true ->
        u ∈ Scraper.extract_image_urls_from_network_logs (Some logs))
  /\ (forall after,
        Scraper.extract_image_urls_from_network_logs
          (Some (logs ++ Scraper.LogMalformed :: after))
        = Scraper.extract_image_urls_from_network_logs (Some logs)).
Proof.
  unfold Scraper.extract_image_urls_from_network_logs. split; [|split].
  - intros u Hu. destruct (log_loop_sound logs ∅ u Hu) as [H|H]; [|exact H].
    exfalso. exact (not_elem_of_empty u H).
  - intros Hok u Hc Ha. apply (log_loop_complete logs Hok ∅). auto.
  - intros after. rewrite log_loop_app.
    destruct (Scraper.log_loop logs ∅) as [[[]|] urls1]; reflexivity.
Qed.

Lemma log_extraction_exact_witness :
  "https://scontent.cdninstagram.com/a.jpg"
    ∈ Scraper.extract_image_urls_from_network_logs
        (Some [ Scraper.LogOther;
                Scraper.LogResponse "https://scontent.cdninstagram.com/a.jpg"
                  "image/jpeg";
                Scraper.LogResponse "https://scontent.cdninstagram.com/b.js"
                  "text/javascript" ]).
Proof.
  apply (proj1 (proj2 (log_extraction_exact _))); try reflexivity.
  apply (bool_decide_unpack _). vm_compute. exact I.
Defined.

(** ** Filenames *)

Section FilenameFacts.
Import PyStr Downloader.

Lemma all_digits_cons (c : ascii) (s : string) :
  Classifier.all_digits (String c s) = isdigit c && Classifier.all_digits s.
Proof. reflexivity. Qed.

Lemma all_digits_app (a b : string) :
  Classifier.all_digits (a +:+ b)
  = Classifier.all_digits a && Classifier.all_digits b.
Proof.
  induction a as [|c a IH]; [reflexivity|].
  rewrite str_app_cons, !all_digits_cons, IH, andb_assoc. reflexivity.
Qed.

Lemma string_of_uint_digits (d : Decimal.uint) :
  Classifier.all_digits (NilEmpty.string_of_uint d) = true.
Proof. induction d; cbn [NilEmpty.string_of_uint]; try reflexivity; exact IHd. Qed.

Lemma zeros_succ (k : nat) :
  String.concat "" (replicate (S k) "0")
  = String "0" (String.concat "" (replicate k "0")).
Proof. destruct k; reflexivity. Qed.

Lemma zeros_digits (k : nat) :
  Classifier.all_digits (String.concat "" (replicate k "0")) = true.
Proof.
  induction k as [|k IH]; [reflexivity|].
  rewrite zeros_succ, all_digits_cons, IH. reflexivity.
Qed.

Lemma format_04d_digits (i : N) : Classifier.all_digits (format_04d i) = true.
Proof.
  unfold format_04d, str_of_N.
  rewrite all_digits_app, zeros_digits, string_of_uint_digits. reflexivity.
Qed.

Lemma format_04d_value (i : N) : numeral_value (format_04d i) = Some i.
Proof.
  unfold format_04d, str_of_N. generalize (4 - String.length
    (NilEmpty.string_of_uint (N.to_uint i)))%nat as k.
  induction k as [|k IH].
  - cbn [replicate String.concat]. rewrite str_app_nil_l.
    unfold numeral_value. rewrite NilEmpty.usu. cbn [option_map].
    rewrite DecimalN.Unsigned.of_to. reflexivity.
  - rewrite zeros_succ, str_app_cons. unfold numeral_value in *.
    cbn [NilEmpty.uint_of_string].
    destruct (NilEmpty.uint_of_string _) as [d|]; [|discriminate].
    cbn in IH |- *. exact IH.
Qed.

Lemma format_04d_inj (i j : N) : format_04d i = format_04d j -> i = j.
Proof.
  intros H. pose proof (format_04d_value i) as Hi.
  rewrite H, format_04d_value in Hi. congruence.
Qed.

(** A run of digits before an underscore is determined by the whole. *)
Lemma digits_before_underscore (a b f g : string) :
  Classifier.all_digits a = true -> Classifier.all_digits b = true ->
  a +:+ String "_" f = b +:+ String "_" g -> a = b.
Proof.
  revert b. induction a as [|c a IH]; intros [|c' b] Ha Hb H.
  - reflexivity.
  - rewrite str_app_nil_l, str_app_cons in H. injection H as <- _.
    rewrite all_digits_cons in Hb. discriminate.
  - rewrite str_app_nil_l, str_app_cons in H. injection H as -> _.
    rewrite all_digits_cons in Ha. discriminate.
  - rewrite !str_app_cons in H. injection H as <- H.
    rewrite all_digits_cons in Ha, Hb.
    apply andb_prop in Ha as [_ Ha]. apply andb_prop in Hb as [_ Hb].
    f_equal. apply (IH b Ha Hb H).
Qed.

(** *** No path separator *)












End FilenameFacts.

(** X10.  In a batch every item gets a name of its own: the names that
    [get_filename_from_url] derives for two different indices differ,
    whatever the URLs (the zero-padded index and the underscore in front
    tell them apart). *)
Theorem distinct_indices_distinct_names
    (rt : Downloader.runtime) (u v : string) (i j : N) (n m : string) :
  Downloader.get_filename_from_url rt u (Some i) = Some n ->
  Downloader.get_filename_from_url rt v (Some j) = Some m ->
  i <> j -> n <> m.
Proof.
  intros Hn Hm Hij Heq.
  destruct (filename_index_prefix rt u i n Hn) as (f & ->).
  destruct (filename_index_prefix rt v j m Hm) as (g & ->).
  apply Hij, format_04d_inj.
  apply (digits_before_underscore _ _ f g (format_04d_digits i)
           (format_04d_digits j)).
  exact Heq.
Qed.

Lemma distinct_indices_distinct_names_witness :
  "0009_11_22_33_n.jpg" <> "0010_11_22_33_n.jpg".
Proof.
  apply (distinct_indices_distinct_names (CPython.process 0 0)
           Scenario.jpeg_url Scenario.jpeg_url 9 10);
    [vm_compute; reflexivity | vm_compute; reflexivity | discriminate].
Defined.



(** ** The session's retries *)

Section RetryFacts.
Import PyStr Downloader.




End RetryFacts.



(** ** One item and the batch *)

Section ItemFacts.
Import PyStr Downloader.

(** A fetch makes at least one request. *)
Lemma send_with_retries_sends (env : environment) (r : retry) (url : string)
    (left errors : nat) (w : world) :
  (sent w < sent (snd (send_with_retries env r left errors url w)))%nat.
Proof.
  destruct left as [|left]; cbn [send_with_retries]; unfold send.
  - destruct (net env (sent w) url) as [|st ct b]; [|destruct (bool_decide _)];
      cbn [snd sent]; lia.
  - set (w1 := {| files := files w; sent := S (sent w);
                  trace := trace w ++ [Request url] |}).
    pose proof (send_with_retries_follows env r url left (S errors)
                  (sleep_backoff r (S errors) w1)) as H.
    cbv zeta in H. destruct H as ((_ & Hs & _) & _).
    destruct (follows_sleep_backoff r (S errors) w1) as (_ & Hb & _).
    rewrite Hb in Hs. subst w1. cbn [sent] in Hs.
    destruct (net env (sent w) url) as [|st ct b]; [|destruct (bool_decide _)];
      cbv zeta; cbn [snd sent]; lia.
Qed.

Lemma download_image_cases (rt : runtime) (env : environment) (url : string)
    (index : option N) (delay : Q) (w : world) :
  let o := fst (download_image rt env url index delay w) in
  let w' := snd (download_image rt env url index delay w) in
  (files w' = files w
   \/ exists name, get_filename_from_url rt url index = Some name
                   /\ files w' = {[name]} ∪ files w)
  /\ (if success o
      then exists name, get_filename_from_url rt url index = Some name
                        /\ filename o = Some name /\ failure o = None
                        /\ name ∈ files w'
      else filename o = None /\ is_Some (failure o))
  /\ (sent w' = sent w -> w' = w).
Proof.
  unfold download_image.
  destruct (get_filename_from_url rt url index) as [name|]; cbn [fst snd success
    failed_with filename failure]; [|repeat split; eauto].
  destruct (bool_decide (name ∈ files w)) eqn:Eex; cbn [fst snd success ok filename
    failure].
  { apply bool_decide_eq_true in Eex. repeat split; eauto 10. }
  unfold session_get.
  pose proof (send_with_retries_follows env retry_strategy url
                (total retry_strategy) 0 w) as H.
  pose proof (send_with_retries_sends env retry_strategy url
                (total retry_strategy) 0 w) as Hs.
  cbv zeta in H. destruct H as (_ & _ & Fi).
  destruct (send_with_retries env retry_strategy (total retry_strategy) 0 url w)
    as [[e|[[status ct] body]] w1]; cbn [fst snd success failed_with filename
      failure] in *.
  { repeat split; eauto. intros; lia. }
  destruct ((400 <=? status) && (status <? 600)); cbn [fst snd success failed_with
    filename failure].
  { repeat split; eauto. intros; lia. }
  destruct (negb (contains "image" (default "" ct))); cbn [fst snd success
    failed_with filename failure].
  { repeat split; eauto. intros; lia. }
  destruct (negb (can_create env name)); cbn [fst snd success failed_with filename
    failure].
  { repeat split; eauto. intros; lia. }
  assert (Fc : files (create name w1) = {[name]} ∪ files w)
    by (cbn; rewrite Fi; reflexivity).
  destruct (negb body); cbn [fst snd success failed_with ok filename failure log
    files sent create].
  - repeat split; eauto. intros; lia.
  - split; [right; exists name; rewrite <- Fi; auto|].
    split; [|intros; lia].
    exists name. repeat split. apply elem_of_union. left.
    apply elem_of_singleton. reflexivity.
Qed.

(** The loop, item by item. *)
Lemma download_loop_items (rt : runtime) (env : environment) (delay : Q)
    (urls : list string) :
  forall i s f res w s' f' res' w',
    download_loop rt env delay urls i s f res w = (s', f', res', w') ->
    exists rs,
      res' = res ++ rs
      /\ forall (k : nat) o,
          rs !! k = Some o ->
          exists u,
            urls !! k = Some u
            /\ if success o
               then exists name,
                   get_filename_from_url rt u (Some (i + N.of_nat k)%N) = Some name
                   /\ filename o = Some name /\ name ∈ files w'
               else filename o = None /\ is_Some (failure o).
Proof.
  induction urls as [|url rest IH]; intros i s f res w s' f' res' w' E;
    cbn [download_loop] in E.
  - injection E as <- <- <- <-. exists []. rewrite app_nil_r.
    split; [reflexivity|]. intros k o Hk. destruct k; discriminate.
  - pose proof (download_image_cases rt env url (Some i) delay w) as (_ & Hc & _).
    destruct (download_image rt env url (Some i) delay w) as [o1 w1].
    cbn [fst snd] in Hc.
    assert (Hrest : exists s1 f1, download_loop rt env delay rest (i + 1)%N s1 f1
                                    (res ++ [o1]) w1 = (s', f', res', w')).
    { destruct (success o1); eauto. }
    destruct Hrest as (s1 & f1 & E1).
    pose proof (download_loop_spec _ _ _ _ _ _ _ _ _ _ _ _ _ E1)
      as (_ & _ & _ & _ & _ & (Fsub & _)).
    destruct (IH _ _ _ _ _ _ _ _ _ E1) as (rs & -> & Hrs).
    exists (o1 :: rs). rewrite <- app_assoc. split; [reflexivity|].
    intros [|k] o Hk.
    + injection Hk as <-. exists url. split; [reflexivity|].
      destruct (success o1); [|exact Hc].
      destruct Hc as (name & Hn & Hf & _ & Hin).
      exists name. rewrite N.add_0_r. auto.
    + destruct (Hrs k o Hk) as (u & Hu & Ho). exists u. split; [exact Hu|].
      replace (i + N.of_nat (S k))%N with (i + 1 + N.of_nat k)%N by lia.
      exact Ho.
Qed.

End ItemFacts.


(** X14.  The batch numbers its items from 1 in the order of the URL list:
    the result at position [k] belongs to the URL at position [k]; when it
    is a success its file name is the one derived with index [k + 1] and
    that file is in the output directory when the batch ends; when it is a
    failure it carries no file name but an error. *)
Theorem batch_items
    (rt : Downloader.runtime) (env : Downloader.environment) (delay : Q)
    (urls : list string) (w w' : Downloader.world)
    (sm : Downloader.summary) (results : list Downloader.outcome) :
  Downloader.download_urls rt env delay urls w = (Some (sm, results), w') ->
  forall (k : nat) o,
    results !! k = Some o ->
    exists u,
      urls !! k = Some u
      /\ if Downloader.success o
         then exists name,
             Downloader.get_filename_from_url rt u (Some (N.of_nat (S k))) = Some name
             /\ Downloader.filename o = Some name
             /\ name ∈ Downloader.files w'
         else Downloader.filename o = None /\ is_Some (Downloader.failure o).
Proof.
  unfold Downloader.download_urls. destruct urls as [|u0 rest]; [discriminate|].
  destruct (Downloader.download_loop rt env delay (u0 :: rest) 1 0 0 [] w)
    as [[[s f] rs] w1] eqn:E.
  intros [= <- <- <-] k o Hk.
  destruct (download_loop_items _ _ _ _ _ _ _ _ _ _ _ _ _ E) as (rs' & -> & H).
  destruct (H k o Hk) as (u & Hu & Ho). exists u. split; [exact Hu|].
  replace (N.of_nat (S k)) with (1 + N.of_nat k)%N by lia. exact Ho.
Qed.

Lemma batch_items_witness :
  exists u,
    [Scenario.html_url; Scenario.jpeg_url] !! 1%nat = Some u
    /\ if Downloader.success (Downloader.ok "0002_11_22_33_n.jpg")
       then exists name,
           Downloader.get_filename_from_url (CPython.process 0 0) u
             (Some (N.of_nat 2)) = Some name
           /\ Downloader.filename (Downloader.ok "0002_11_22_33_n.jpg") = Some name
           /\ name ∈ Downloader.files
                (snd (Downloader.download_urls (CPython.process 0 0)
                        Scenario.three_servers (1 # 2)
                        [Scenario.html_url; Scenario.jpeg_url]
                        (Downloader.fresh ∅)))
       else Downloader.filename (Downloader.ok "0002_11_22_33_n.jpg") = None
            /\ is_Some (Downloader.failure (Downloader.ok "0002_11_22_33_n.jpg")).
Proof.
  apply (batch_items (CPython.process 0 0) Scenario.three_servers (1 # 2)
           [Scenario.html_url; Scenario.jpeg_url] (Downloader.fresh ∅) _
           {| Downloader.successful := 1; Downloader.failed := 1;
              Downloader.total_urls := 2 |}
           [ Downloader.failed_with (Downloader.Message "Not an image: text/html");
             Downloader.ok "0002_11_22_33_n.jpg" ]).
  - vm_compute. reflexivity.
  - reflexivity.
Defined.


Lemma network_export_extracts_exactly_witness :
  "https://scontent.cdninstagram.com/v/t51.82787-15/1_2_3_n.jpg"
    ∈ UrlStore.extract_urls_from_network_export
        (String.concat (String TextFile.TAB "")
           ["1_2_3_n.jpg";
            "https://scontent.cdninstagram.com/v/t51.82787-15/1_2_3_n.jpg";
            "200"; "jpeg"]).
Proof.
  apply (proj1 (network_export_extracts_exactly _)).
  eexists. split; [apply list_elem_of_singleton; vm_compute; reflexivity|].
  eexists _, _, _. split; [vm_compute; reflexivity|].
  repeat split; vm_compute; reflexivity.
Defined.

Section RerunFacts.
Import PyStr Downloader.

(** A name that does not come from [hash] is the same in every process. *)
Lemma hash_free_same_name (rt1 rt2 : runtime) (url : string) (index : option N) :
  (forall u, urlparse_path rt2 u = urlparse_path rt1 u) ->
  hash_free rt1 url = true ->
  get_filename_from_url rt2 url index = get_filename_from_url rt1 url index.
Proof.
  intros Hpath. unfold hash_free, get_filename_from_url. rewrite Hpath.
  destruct (urlparse_path rt1 url) as [path|]; [|reflexivity].
  cbn [mbind option_bind].
  destruct (search_content_id path); [reflexivity|].
  intros ->%negb_true_iff. reflexivity.
Qed.

Lemma rerun_simulation_on (rt1 rt2 : runtime) (env1 env2 : environment)
    (delay1 delay2 : Q) (urls : list string) :
  (forall u i, u ∈ urls ->
               get_filename_from_url rt2 u i = get_filename_from_url rt1 u i) ->
  forall i sa fa ra wa sb fb rb wb sa' fa' ra' wa' sb' fb' rb' wb',
    download_loop rt1 env1 delay1 urls i sa fa ra wa = (sa', fa', ra', wa') ->
    download_loop rt2 env2 delay2 urls i sb fb rb wb = (sb', fb', rb', wb') ->
    files wa' ⊆ files wb ->
    (sa' + sb <= sb' + sa)%nat
    /\ (sent wb' + 4 * fa <= sent wb + 4 * fa')%nat.
Proof.
  induction urls as [|url rest IH];
    intros Hnames i sa fa ra wa sb fb rb wb sa' fa' ra' wa' sb' fb' rb' wb' E1 E2 Hsub;
    cbn [download_loop] in E1, E2.
  - injection E1 as <- <- <- <-. injection E2 as <- <- <- <-. lia.
  - assert (Hrest : forall u j, u ∈ rest ->
              get_filename_from_url rt2 u j = get_filename_from_url rt1 u j)
      by (intros u j Hu; apply Hnames, elem_of_cons; auto).
    specialize (IH Hrest).
    pose proof (download_image_follows rt1 env1 url (Some i) delay1 wa)
      as (_ & _ & Hok).
    destruct (download_image rt1 env1 url (Some i) delay1 wa) as [o1 wa1].
    cbn [fst snd] in Hok.
    destruct (success o1) eqn:Eo1.
    + destruct (Hok eq_refl) as (name & Hn & Hin).
      pose proof (download_loop_spec _ _ _ _ _ _ _ _ _ _ _ _ _ E1)
        as (_ & _ & _ & _ & _ & (Fsub & _)).
      rewrite (download_image_skip rt2 env2 url (Some i) delay2 wb name) in E2
        by first [rewrite Hnames; [exact Hn | apply elem_of_cons; auto]
                 | apply Hsub, Fsub, Hin].
      cbn [success ok] in E2.
      specialize (IH _ _ _ _ _ _ _ _ _ _ _ _ _ _ _ _ _ E1 E2 Hsub). lia.
    + pose proof (download_image_follows rt2 env2 url (Some i) delay2 wb)
        as ((Fb & _) & Sb & _).
      destruct (download_image rt2 env2 url (Some i) delay2 wb) as [o2 wb1].
      cbn [fst snd] in Fb, Sb.
      assert (Hsub1 : files wa' ⊆ files wb1) by (etrans; eassumption).
      destruct (success o2);
        specialize (IH _ _ _ _ _ _ _ _ _ _ _ _ _ _ _ _ _ E1 E2 Hsub1); lia.
Qed.

End RerunFacts.

(** X15.  Re-running a batch in another process (another hash secret, the
    same [urlparse]) is safe for URLs whose names do not come from [hash]
    (a content id in the path, or a last path segment with a dot): when
    every item of the first run succeeded, the second run makes no request
    and reports the same success count. *)
Theorem rerun_in_another_process
    (rt1 rt2 : Downloader.runtime) (env1 env2 : Downloader.environment)
    (delay1 delay2 : Q) (urls : list string) (dir : gset string)
    (sm1 : Downloader.summary) (results1 : list Downloader.outcome)
    (w1 : Downloader.world) :
  (forall u, Downloader.urlparse_path rt2 u = Downloader.urlparse_path rt1 u) ->
  (forall u, u ∈ urls -> Downloader.hash_free rt1 u = true) ->
  Downloader.download_urls rt1 env1 delay1 urls (Downloader.fresh dir)
  = (Some (sm1, results1), w1) ->
  Downloader.failed sm1 = 0%nat ->
  exists sm2 results2 w2,
    Downloader.download_urls rt2 env2 delay2 urls (Downloader.next_run w1)
    = (Some (sm2, results2), w2)
    /\ Downloader.requests_of (Downloader.trace w2) = []
    /\ Downloader.successful sm2 = Downloader.successful sm1
    /\ Downloader.failed sm2 = 0%nat.
Proof.
  intros Hpath Hfree E1 F0. unfold Downloader.download_urls in *.
  destruct urls as [|u rest]; [discriminate|].
  destruct (Downloader.download_loop rt1 env1 delay1 (u :: rest) 1 0 0 []
              (Downloader.fresh dir)) as [[[s1 f1] r1] wa] eqn:L1.
  injection E1 as <- <- <-. cbn [Downloader.failed Downloader.successful] in *.
  destruct (Downloader.download_loop rt2 env2 delay2 (u :: rest) 1 0 0 []
              (Downloader.next_run wa)) as [[[s2 f2] r2] wb] eqn:L2.
  eexists _, r2, wb. split; [reflexivity|].
  cbn [Downloader.successful Downloader.failed].
  destruct (rerun_simulation_on rt1 rt2 env1 env2 delay1 delay2 (u :: rest)
              (fun v i Hv => hash_free_same_name rt1 rt2 v i Hpath (Hfree v Hv))
              _ _ _ _ _ _ _ _ _ _ _ _ _ _ _ _ _ L1 L2) as (Hs & Hr);
    [reflexivity|].
  pose proof (download_loop_spec _ _ _ _ _ _ _ _ _ _ _ _ _ L1)
    as (ra & _ & La & Sa & Fa & _).
  pose proof (download_loop_spec _ _ _ _ _ _ _ _ _ _ _ _ _ L2)
    as (rb & _ & Lb & Sb & Fb & (_ & _ & Bal)).
  pose proof (count_ok_failed ra) as Ca.
  pose proof (count_ok_failed rb) as Cb.
  unfold Downloader.n_requests in Bal. cbn in Bal, Hr.
  split; [apply length_zero_iff_nil; lia | lia].
Qed.

Lemma rerun_in_another_process_witness :
  exists sm2 results2 w2,
    Downloader.download_urls
      (CPython.process 12598376723466036009 16999324916296290386)
      Scenario.three_servers (1 # 2) [Scenario.jpeg_url]
      (Downloader.next_run
         (snd (Downloader.download_urls (CPython.process 0 0)
                 Scenario.three_servers (1 # 2) [Scenario.jpeg_url]
                 (Downloader.fresh ∅))))
    = (Some (sm2, results2), w2)
    /\ Downloader.requests_of (Downloader.trace w2) = []
    /\ Downloader.successful sm2 = 1%nat
    /\ Downloader.failed sm2 = 0%nat.
Proof.
  apply (rerun_in_another_process (CPython.process 0 0)
           (CPython.process 12598376723466036009 16999324916296290386)
           Scenario.three_servers Scenario.three_servers (1 # 2) (1 # 2)
           [Scenario.jpeg_url] ∅
           {| Downloader.successful := 1; Downloader.failed := 0;
              Downloader.total_urls := 1 |}
           [Downloader.ok "0001_11_22_33_n.jpg"]).
  - intros u. reflexivity.
  - intros u ->%list_elem_of_singleton. reflexivity.
  - vm_compute. reflexivity.
  - reflexivity.
Defined.

(** X16.  A download that breaks off in the body leaves its file behind:
    the item is reported as failed, but the file was created, so the next
    run finds it, reports the item as a success and does not fetch it
    again. *)
Theorem truncated_download_counts_as_done
    (rt : Downloader.runtime) (env env' : Downloader.environment) (url : string)
    (index : option N) (delay delay' : Q) (w : Downloader.world)
    (name ct : string) (status : Z) :
  Downloader.get_filename_from_url rt url index = Some name ->
  name ∉ Downloader.files w ->
  Downloader.net env (Downloader.sent w) url
  = Downloader.Response status (Some ct) false ->
  status ∉ Downloader.status_forcelist Downloader.retry_strategy ->
  (400 <=? status) && (status <? 600) = false ->
  PyStr.contains "image" ct = true ->
  Downloader.can_create env name = true ->
  let o := fst (Downloader.download_image rt env url index delay w) in
  let w1 := snd (Downloader.download_image rt env url index delay w) in
  o = Downloader.failed_with (Downloader.Raised Downloader.StreamError)
  /\ name ∈ Downloader.files w1
  /\ Downloader.download_image rt env' url index delay' (Downloader.next_run w1)
     = (Downloader.ok name, Downloader.next_run w1).
Proof.
  intros Hn Hnew Hnet Hst Hrange Hct Hcreate. cbv zeta.
  assert (E : Downloader.download_image rt env url index delay w
              = (Downloader.failed_with (Downloader.Raised Downloader.StreamError),
                 Downloader.create name (snd (Downloader.send env url w)))).
  { unfold Downloader.download_image.
    rewrite Hn, bool_decide_eq_false_2 by exact Hnew.
    rewrite (session_get_no_retry env url w status (Some ct) false Hnet Hst).
    rewrite Hrange. change (default "" (Some ct)) with ct.
    rewrite Hct, Hcreate. reflexivity. }
  rewrite E. cbn [fst snd].
  assert (Hin : name ∈ Downloader.files
                  (Downloader.create name (snd (Downloader.send env url w))))
    by apply follows_create.
  split; [reflexivity|]. split; [exact Hin|].
  apply download_image_skip; [exact Hn | exact Hin].
Qed.

Lemma truncated_download_counts_as_done_witness :
  Downloader.download_image (CPython.process 0 0) Scenario.three_servers
    Scenario.jpeg_url (Some 1%N) (1 # 2)
    (Downloader.next_run
       (snd (Downloader.download_image (CPython.process 0 0)
               (Scenario.always (Downloader.Response 200 (Some "image/jpeg") false))
               Scenario.jpeg_url (Some 1%N) (1 # 2) (Downloader.fresh ∅))))
  = (Downloader.ok "0001_11_22_33_n.jpg",
     Downloader.next_run
       (snd (Downloader.download_image (CPython.process 0 0)
               (Scenario.always (Downloader.Response 200 (Some "image/jpeg") false))
               Scenario.jpeg_url (Some 1%N) (1 # 2) (Downloader.fresh ∅)))).
Proof.
  apply (truncated_download_counts_as_done (CPython.process 0 0)
           (Scenario.always (Downloader.Response 200 (Some "image/jpeg") false))
           Scenario.three_servers Scenario.jpeg_url (Some 1%N) (1 # 2) (1 # 2)
           (Downloader.fresh ∅) "0001_11_22_33_n.jpg" "image/jpeg" 200);
    try reflexivity.
  - apply not_elem_of_empty.
  - apply status_unlisted; discriminate.
Defined.

(** ** From the extractor to the downloader *)

Section HandOffFacts.
Import PyStr TextFile UrlStore Downloader.

Lemma extracted_urls_storable (content : string) :
  Forall (fun u => storable u = true) (extract_urls_from_network_export content).
Proof.
  apply Forall_forall. intros u Hu. apply sorted_urls_elem in Hu.
  apply (export_loop_storable (read_lines content)
           (lines_breaks_trailing _ (universal_newlines_no_cr content)) ∅);
    [|exact Hu].
  intros v Hv. exfalso. exact (not_elem_of_empty v Hv).
Qed.

End HandOffFacts.

(** X17.  The hand-off between the two scripts loses nothing: when the
    list that [extract_urls_from_network_export] makes from an export is
    saved with [save_urls_to_file] and given to [download_images_from_file],
    the batch attempts exactly the extracted URLs, one result each, and its
    summary counts them all (an empty list gives no summary). *)
Theorem extracted_list_is_downloaded
    (rt : Downloader.runtime) (env : Downloader.environment) (delay : Q)
    (export : string) (w : Downloader.world) :
  UrlStore.extract_urls_from_network_export export <> [] ->
  Downloader.download_images_from_file rt env
    (UrlStore.save_urls_to_file (UrlStore.extract_urls_from_network_export export))
    delay w
  = Downloader.download_urls rt env delay
      (UrlStore.extract_urls_from_network_export export) w
  /\ exists sm results w',
      Downloader.download_images_from_file rt env
        (UrlStore.save_urls_to_file
           (UrlStore.extract_urls_from_network_export export))
        delay w
      = (Some (sm, results), w')
      /\ Downloader.total_urls sm
         = length (UrlStore.extract_urls_from_network_export export)
      /\ length results = length (UrlStore.extract_urls_from_network_export export)
      /\ (Downloader.successful sm + Downloader.failed sm
          = Downloader.total_urls sm)%nat.
Proof.
  intros Hne. unfold Downloader.download_images_from_file.
  rewrite (load_save _ (extracted_urls_storable export)).
  split; [reflexivity|].
  unfold Downloader.download_urls.
  destruct (UrlStore.extract_urls_from_network_export export) as [|u rest];
    [congruence|].
  destruct (Downloader.download_loop rt env delay (u :: rest) 1 0 0 [] w)
    as [[[s f] results] w'] eqn:E.
  apply download_loop_spec in E as (rs & -> & L & -> & -> & _).
  eexists _, _, _. split; [reflexivity|].
  cbn [Downloader.successful Downloader.failed Downloader.total_urls app].
  pose proof (count_ok_failed rs). repeat split; lia.
Qed.

Lemma extracted_list_is_downloaded_witness :
  Downloader.download_images_from_file (CPython.process 0 0) Scenario.three_servers
    (UrlStore.save_urls_to_file
       (UrlStore.extract_urls_from_network_export
          (String.concat (String TextFile.TAB "")
             ["11_22_33_n.jpg"; Scenario.jpeg_url; "200"; "jpeg"])))
    (1 # 2) (Downloader.fresh ∅)
  = Downloader.download_urls (CPython.process 0 0) Scenario.three_servers (1 # 2)
      (UrlStore.extract_urls_from_network_export
         (String.concat (String TextFile.TAB "")
            ["11_22_33_n.jpg"; Scenario.jpeg_url; "200"; "jpeg"]))
      (Downloader.fresh ∅).
Proof.
  apply (proj1 (extracted_list_is_downloaded (CPython.process 0 0)
                  Scenario.three_servers (1 # 2)
                  (String.concat (String TextFile.TAB "")
                     ["11_22_33_n.jpg"; Scenario.jpeg_url; "200"; "jpeg"])
                  (Downloader.fresh ∅) ltac:(vm_compute; discriminate))).
Defined.

(** ** Extraction from free text *)

Section TextFacts.
Import PyStr TextFile UrlStore Regex TextExtractor.

Lemma all_chars_cons (P : ascii -> bool) (c : ascii) (s : string) :
  all_chars P (String c s) = P c && all_chars P s.
Proof. reflexivity. Qed.

Lemma all_chars_app (P : ascii -> bool) (a b : string) :
  all_chars P (a +:+ b) = all_chars P a && all_chars P b.
Proof.
  induction a as [|c a IH]; [reflexivity|].
  rewrite str_app_cons, !all_chars_cons, IH, andb_assoc. reflexivity.
Qed.

Lemma all_chars_impl (P Q : ascii -> bool) (s : string) :
  (forall c, P c = true -> Q c = true) ->
  all_chars P s = true -> all_chars Q s = true.
Proof.
  intros HPQ. induction s as [|c s IH]; [reflexivity|].
  rewrite !all_chars_cons. intros [Hc Hs]%andb_prop.
  rewrite (HPQ c Hc), (IH Hs). reflexivity.
Qed.

(** *** The matcher finds what the pattern describes *)

Lemma drop_prefix_split (l : string) :
  forall s s', drop_prefix l s = Some s' -> s = l +:+ s'.
Proof.
  induction l as [|c l IH]; intros s s' H; cbn [drop_prefix] in H.
  - injection H as ->. reflexivity.
  - destruct s as [|c' s]; [discriminate|].
    destruct (Ascii.eqb c c') eqn:E; [|discriminate].
    apply Ascii.eqb_eq in E as <-. rewrite str_app_cons. f_equal. apply IH, H.
Qed.

Lemma drop_prefix_app (l rest : string) : drop_prefix l (l +:+ rest) = Some rest.
Proof.
  induction l as [|c l IH]; [reflexivity|].
  rewrite str_app_cons. cbn [drop_prefix]. rewrite Ascii.eqb_refl. exact IH.
Qed.

Lemma plus_class_sound (p : ascii -> bool) :
  forall s k x,
    plus_class p s k = Some x ->
    exists mid rest,
      s = mid +:+ rest /\ (mid <> "" /\ all_chars p mid = true) /\ k rest = Some x.
Proof.
  induction s as [|c s IH]; intros k x H; cbn [plus_class] in H; [discriminate|].
  destruct (p c) eqn:Hc; [|discriminate].
  destruct (plus_class p s k) as [y|] eqn:E.
  - injection H as ->. destruct (IH _ _ E) as (mid & rest & -> & [_ Hm] & Hk).
    exists (String c mid), rest.
    rewrite str_app_cons, all_chars_cons, Hc, Hm.
    split; [reflexivity|]. split; [split; [discriminate | reflexivity] | exact Hk].
  - exists (String c ""), s. rewrite all_chars_cons, Hc.
    split; [reflexivity|]. split; [split; [discriminate | reflexivity] | exact H].
Qed.

Lemma plus_class_complete (p : ascii -> bool) (mid : string) :
  mid <> "" -> all_chars p mid = true ->
  forall rest k x,
    k rest = Some x -> exists y, plus_class p (mid +:+ rest) k = Some y.
Proof.
  induction mid as [|c mid IH]; [congruence|]. intros _ H rest k x Hk.
  rewrite all_chars_cons in H. apply andb_prop in H as [Hc Hm].
  rewrite str_app_cons. cbn [plus_class]. rewrite Hc.
  destruct (plus_class p (mid +:+ rest) k) as [y|] eqn:E; [eauto|].
  destruct mid as [|c' mid'].
  - rewrite str_app_nil_l. eauto.
  - destruct (IH ltac:(discriminate) Hm rest k x Hk) as (y & Hy). congruence.
Qed.

(** The greedy class stops only where its characters stop. *)
Lemma plus_class_greedy (p : ascii -> bool) :
  forall s x,
    plus_class p s Some = Some x ->
    match x with String c _ => p c = false | EmptyString => True end.
Proof.
  induction s as [|c s IH]; intros x H; cbn [plus_class] in H; [discriminate|].
  destruct (p c) eqn:Hc; [|discriminate].
  destruct (plus_class p s Some) as [y|] eqn:E.
  - injection H as ->. apply (IH x eq_refl).
  - injection H as <-. destruct s as [|c' s']; [exact I|].
    cbn [plus_class] in E. destruct (p c'); [|reflexivity].
    destruct (plus_class p s' Some); discriminate.
Qed.

Lemma run_sound (r : re) :
  forall s k x,
    run r s k = Some x ->
    exists mid rest, s = mid +:+ rest /\ lang r mid /\ k rest = Some x.
Proof.
  induction r as [l|a IHa b IHb|a IHa b IHb|a IHa|p]; intros s k x H;
    cbn [run] in H; cbn [lang].
  - destruct (drop_prefix l s) as [s'|] eqn:E; [|discriminate].
    exists l, s'. split; [apply drop_prefix_split, E|]. auto.
  - apply IHa in H as (x1 & r1 & -> & L1 & H).
    apply IHb in H as (x2 & r2 & -> & L2 & H).
    exists (x1 +:+ x2), r2. rewrite str_app_assoc. eauto 10.
  - destruct (run a s k) as [y|] eqn:E.
    + injection H as ->. apply IHa in E as (m & r & -> & L & Hk). eauto 10.
    + apply IHb in H as (m & r & -> & L & Hk). eauto 10.
  - destruct (run a s k) as [y|] eqn:E.
    + injection H as ->. apply IHa in E as (m & r & -> & L & Hk). eauto 10.
    + exists "", s. auto.
  - apply plus_class_sound, H.
Qed.

Lemma run_complete (r : re) :
  forall mid,
    lang r mid ->
    forall rest k x, k rest = Some x -> exists y, run r (mid +:+ rest) k = Some y.
Proof.
  induction r as [l|a IHa b IHb|a IHa b IHb|a IHa|p]; intros mid L rest k x Hk;
    cbn [lang] in L; cbn [run].
  - subst mid. rewrite drop_prefix_app. eauto.
  - destruct L as (x1 & x2 & -> & L1 & L2). rewrite str_app_assoc.
    destruct (IHb x2 L2 rest k x Hk) as (y & Hy).
    apply (IHa x1 L1 (x2 +:+ rest) (fun s' => run b s' k) y Hy).
  - destruct (run a (mid +:+ rest) k) as [y|] eqn:E; [eauto|].
    destruct L as [L|L].
    + destruct (IHa _ L rest k x Hk) as (y & Hy). congruence.
    + apply (IHb _ L rest k x Hk).
  - destruct (run a (mid +:+ rest) k) as [y|] eqn:E; [eauto|].
    destruct L as [->|L].
    + rewrite str_app_nil_l. eauto.
    + destruct (IHa _ L rest k x Hk) as (y & Hy). congruence.
  - destruct L as [Hne Hp]. apply (plus_class_complete p mid Hne Hp rest k x Hk).
Qed.

Lemma str_length_app (a b : string) :
  String.length (a +:+ b) = (String.length a + String.length b)%nat.
Proof.
  induction a as [|c a IH]; [reflexivity|].
  rewrite str_app_cons. cbn [String.length]. rewrite IH. reflexivity.
Qed.

Lemma substring_head (a b : string) :
  String.substring 0 (String.length (a +:+ b) - String.length b) (a +:+ b) = a.
Proof.
  rewrite str_length_app.
  replace (String.length a + String.length b - String.length b)%nat
    with (String.length a) by lia.
  induction a as [|c a IH].
  - destruct b; reflexivity.
  - rewrite str_app_cons. cbn [String.length String.substring]. rewrite IH.
    reflexivity.
Qed.

Lemma match_at_sound (r : re) (s m : string) :
  match_at r s = Some m -> exists rest, s = m +:+ rest /\ lang r m.
Proof.
  unfold match_at. destruct (run r s Some) as [x|] eqn:E; [|discriminate].
  apply run_sound in E as (mid & rest & -> & L & Hk). injection Hk as <-.
  rewrite substring_head. intros [= <-]. eauto.
Qed.

Lemma match_at_complete (r : re) (m rest : string) :
  lang r m -> exists m', match_at r (m +:+ rest) = Some m'.
Proof.
  intros L. unfold match_at.
  destruct (run_complete r m L rest Some rest eq_refl) as (y & ->). eauto.
Qed.

(** *** The pattern of [extract_urls_from_text] *)

Lemma url_pattern_lang (m : string) : lang url_pattern m <-> url_shape m.
Proof.
  unfold url_pattern, url_shape, domains. cbn [lang In]. split.
  - intros (m1 & t1 & -> & -> & m2 & t2 & -> & Hs & m3 & t3 & -> & -> &
            m4 & t4 & -> & Hh & m5 & tail & -> & Hd & Hne & Ht).
    exists ("http" +:+ m2), m4, m5, tail.
    split; [rewrite !str_app_assoc; reflexivity|].
    split; [destruct Hs as [->| ->]; auto|].
    split.
    { destruct Hh as [->|(h & d & -> & [Hn Hc] & ->)]; [auto|]. right. eauto. }
    split; [|auto].
    destruct Hd as [(a & b & -> & -> & [->| ->])|[->| ->]]; auto.
  - intros (scheme & host & domain & tail & -> & Hs & Hh & Hd & Hne & Ht).
    exists "http", (String.substring 4 (String.length scheme - 4) scheme
                    +:+ "://" +:+ host +:+ domain +:+ tail).
    split; [destruct Hs as [->| ->]; reflexivity|]. split; [reflexivity|].
    exists (String.substring 4 (String.length scheme - 4) scheme),
           ("://" +:+ host +:+ domain +:+ tail).
    split; [reflexivity|].
    split; [destruct Hs as [->| ->]; cbn; auto|].
    exists "://", (host +:+ domain +:+ tail). split; [reflexivity|].
    split; [reflexivity|].
    exists host, (domain +:+ tail). split; [reflexivity|].
    split.
    { destruct Hh as [->|(h & -> & Hn & Hc)]; [auto|]. right. exists h, ".". auto. }
    exists domain, tail. split; [reflexivity|]. split; [|auto].
    destruct Hd as [<-|[<-|[<-|[<-|[]]]]].
    + left. exists "instagram.", "com". auto.
    + left. exists "instagram.", "fbcdn.net". auto.
    + right. auto.
    + right. auto.
Qed.

Lemma url_pattern_ends (s rest : string) :
  run url_pattern s Some = Some rest -> ends_run rest.
Proof.
  unfold url_pattern. cbn [run]. intros H.
  destruct (drop_prefix "http" s) as [s1|]; [|discriminate].
  apply (run_sound (Opt (Lit "s"))) in H as (? & s2 & _ & _ & H).
  destruct (drop_prefix "://" s2) as [s3|]; [|discriminate].
  apply (run_sound (Opt (Cat (Plus host_char) (Lit ".")))) in H as (? & s4 & _ & _ & H).
  apply (run_sound (Alt (Cat (Lit "instagram.") (Alt (Lit "com") (Lit "fbcdn.net")))
                        (Alt (Lit "fbcdn.net") (Lit "cdninstagram.com"))))
    in H as (? & s5 & _ & _ & H).
  apply plus_class_greedy in H. exact H.
Qed.

Lemma match_at_url (s m : string) :
  match_at url_pattern s = Some m ->
  exists rest, s = m +:+ rest /\ url_shape m /\ ends_run rest.
Proof.
  intros H. unfold match_at in H.
  destruct (run url_pattern s Some) as [x|] eqn:E; [|discriminate].
  pose proof (url_pattern_ends _ _ E) as He.
  apply run_sound in E as (mid & rest & -> & L & Hk). injection Hk as <-.
  rewrite substring_head in H. injection H as <-.
  exists rest. split; [reflexivity|]. split; [apply url_pattern_lang, L | exact He].
Qed.

(** *** [findall] *)

Lemma str_app_cancel_l (m a b : string) : m +:+ a = m +:+ b -> a = b.
Proof.
  induction m as [|c m IH]; [auto|].
  rewrite !str_app_cons. intros [= H]. exact (IH H).
Qed.

Lemma contains_cons (a : string) (c : ascii) (s : string) :
  contains a s = true -> contains a (String c s) = true.
Proof.
  intros H. cbn [contains]. rewrite H. destruct (String.prefix a (String c s)); reflexivity.
Qed.

Lemma findall_from_spec (r : re) (s : string) :
  forall skip m,
    In m (findall_from r s skip) ->
    exists pre rest, s = pre +:+ m +:+ rest /\ match_at r (m +:+ rest) = Some m.
Proof.
  induction s as [|c s IH]; intros skip m; cbn [findall_from]; [intros []|].
  assert (Later : forall n, In m (findall_from r s n) ->
            exists pre rest,
              String c s = pre +:+ m +:+ rest /\ match_at r (m +:+ rest) = Some m).
  { intros n H. destruct (IH _ _ H) as (pre & rest & -> & Hm).
    exists (String c pre), rest. split; [reflexivity | exact Hm]. }
  destruct skip as [|n]; [|apply Later].
  destruct (match_at r (String c s)) as [m0|] eqn:E; [|apply Later].
  intros [<-|H]; [|apply (Later _ H)].
  destruct (match_at_sound _ _ _ E) as (rest & Hs & _).
  exists "", rest. rewrite str_app_nil_l, <- Hs. split; [reflexivity | exact E].
Qed.

(** *** Stripping the trailing punctuation *)

Lemma rstrip_chars_cases (cs : string) (c : ascii) (s : string) :
  rstrip_chars cs (String c s) = "" /\ rstrip_chars cs s = "" /\ in_chars cs c = true
  \/ rstrip_chars cs (String c s) = String c "" /\ rstrip_chars cs s = ""
     /\ in_chars cs c = false
  \/ rstrip_chars cs (String c s) = String c (rstrip_chars cs s)
     /\ rstrip_chars cs s <> "".
Proof.
  cbn [rstrip_chars].
  destruct (rstrip_chars cs s); [destruct (in_chars cs c)|]; auto.
Qed.

Lemma rstrip_chars_app (cs a b : string) :
  rstrip_chars cs (a +:+ b)
  = match rstrip_chars cs b with
    | EmptyString => rstrip_chars cs a
    | r => a +:+ r
    end.
Proof.
  induction a as [|c a IH].
  - rewrite str_app_nil_l. destruct (rstrip_chars cs b); reflexivity.
  - rewrite str_app_cons. cbn [rstrip_chars]. rewrite IH.
    destruct (rstrip_chars cs b) as [|c' r]; [reflexivity|].
    destruct a; reflexivity.
Qed.

Lemma rstrip_chars_split (cs s : string) :
  exists t, s = rstrip_chars cs s +:+ t /\ all_chars (in_chars cs) t = true.
Proof.
  induction s as [|c s (t & Ht & Hp)]; [exists ""; auto|].
  destruct (rstrip_chars_cases cs c s) as [(E & E' & Hc)|[(E & E' & Hc)|(E & _)]];
    rewrite E.
  - exists (String c t). rewrite E', str_app_nil_l in Ht. subst s.
    rewrite str_app_nil_l, all_chars_cons, Hc, Hp. auto.
  - exists t. rewrite E', str_app_nil_l in Ht. subst s.
    split; [reflexivity | exact Hp].
  - exists t. rewrite str_app_cons, <- Ht. auto.
Qed.

Lemma rstrip_chars_idem (cs s : string) :
  rstrip_chars cs (rstrip_chars cs s) = rstrip_chars cs s.
Proof.
  induction s as [|c s IH]; [reflexivity|].
  destruct (rstrip_chars_cases cs c s) as [(E & _)|[(E & _ & Hc)|(E & Hne)]];
    rewrite E.
  - reflexivity.
  - cbn [rstrip_chars]. rewrite Hc. reflexivity.
  - cbn [rstrip_chars]. rewrite IH.
    destruct (rstrip_chars cs s); [congruence | reflexivity].
Qed.

(** Stripping a URL of the pattern's shape touches its tail only. *)
Lemma rstrip_url_shape (m : string) :
  url_shape m ->
  exists scheme host domain tail t,
    m = rstrip_chars trailing_punctuation m +:+ t
    /\ all_chars (in_chars trailing_punctuation) t = true
    /\ rstrip_chars trailing_punctuation m
       = scheme +:+ "://" +:+ host +:+ domain +:+ tail
    /\ (scheme = "http" \/ scheme = "https")
    /\ (host = ""
        \/ exists h, host = h +:+ "." /\ h <> "" /\ all_chars host_char h = true)
    /\ In domain domains
    /\ all_chars url_char tail = true.
Proof.
  intros (scheme & host & domain & tail & Hm & Hs & Hh & Hd & Hne & Ht).
  destruct (rstrip_chars_split trailing_punctuation m) as (t & Hsplit & Hp).
  destruct (rstrip_chars_split trailing_punctuation tail) as (t' & Htail & _).
  exists scheme, host, domain, (rstrip_chars trailing_punctuation tail), t.
  split; [exact Hsplit|]. split; [exact Hp|].
  split.
  { assert (Hdom : rstrip_chars trailing_punctuation (domain +:+ tail)
                   = domain +:+ rstrip_chars trailing_punctuation tail).
    { rewrite rstrip_chars_app.
      destruct (rstrip_chars trailing_punctuation tail) eqn:E; [|reflexivity].
      rewrite str_app_nil_r.
      unfold domains in Hd. cbn [In] in Hd.
      destruct Hd as [<-|[<-|[<-|[<-|[]]]]]; reflexivity. }
    assert (Hdne : domain +:+ rstrip_chars trailing_punctuation tail <> "").
    { unfold domains in Hd. cbn [In] in Hd.
      destruct Hd as [<-|[<-|[<-|[<-|[]]]]]; discriminate. }
    rewrite Hm.
    rewrite (rstrip_chars_app _ scheme), (rstrip_chars_app _ "://"),
      (rstrip_chars_app _ host), Hdom.
    destruct (domain +:+ rstrip_chars trailing_punctuation tail) as [|c0 r0] eqn:E0;
      [congruence|].
    destruct host as [|ch host']; [rewrite !str_app_nil_l; reflexivity|].
    rewrite str_app_cons. reflexivity. }
  split; [exact Hs|]. split; [exact Hh|]. split; [exact Hd|].
  rewrite Htail, all_chars_app in Ht. apply andb_prop in Ht as [Ht _]. exact Ht.
Qed.

Lemma findall_nil (r : re) (pre : string) :
  forall s c s',
    s = pre +:+ String c s' ->
    findall_from r s 0 = [] -> match_at r (String c s') = None.
Proof.
  induction pre as [|a pre IH]; intros s c s' -> H.
  - rewrite str_app_nil_l in H. cbn [findall_from] in H.
    destruct (match_at r (String c s')); [discriminate | reflexivity].
  - rewrite str_app_cons in H. cbn [findall_from] in H.
    destruct (match_at r (String a (pre +:+ String c s'))); [discriminate|].
    apply (IH _ c s' eq_refl H).
Qed.

Lemma url_shape_nonempty (m : string) : url_shape m -> exists c m', m = String c m'.
Proof.
  intros (scheme & host & domain & tail & -> & [->| ->] & _); eexists _, _; reflexivity.
Qed.

(** *** The loop over the matches *)

Lemma text_loop_elem (ms : list string) :
  forall urls u,
    u ∈ text_loop ms urls
    <-> u ∈ urls
        \/ exists m, In m ms /\ u = rstrip_chars trailing_punctuation m
                     /\ Classifier.is_full_size_image u = true.
Proof.
  induction ms as [|m rest IH]; intros urls u; cbn [text_loop].
  - split; [auto|]. intros [H|(m & [] & _)]. exact H.
  - change ".,;:!?)" with trailing_punctuation.
    destruct (Classifier.is_full_size_image (rstrip_chars trailing_punctuation m)) eqn:E.
    + rewrite IH, elem_of_union, elem_of_singleton. split.
      * intros [[->|H]|(m' & Hin & Hu)]; [right; exists m; cbn [In]; auto | auto |].
        right. exists m'. cbn [In]. tauto.
      * intros [H|(m' & [<-|Hin] & -> & Hf)]; [auto | auto | right; eauto].
    + rewrite IH. split.
      * intros [H|(m' & Hin & Hu)]; [auto|]. right. exists m'. cbn [In]. tauto.
      * intros [H|(m' & [<-|Hin] & -> & Hf)]; [auto | congruence | right; eauto].
Qed.

(** *** What a stripped match looks like *)

Lemma host_char_no_space (c : ascii) : host_char c = true -> negb (isspace c) = true.
Proof. unfold host_char. intros [_ H]%andb_prop. exact H. Qed.

Lemma url_char_no_space (c : ascii) : url_char c = true -> negb (isspace c) = true.
Proof. unfold url_char. intros [[H _]%andb_prop _]%andb_prop. exact H. Qed.

Lemma domain_cdn_family (pre domain post : string) :
  In domain domains -> Classifier.cdn_family (pre +:+ domain +:+ post) = true.
Proof.
  intros Hd. unfold Classifier.cdn_family.
  pose proof (contains_middle pre domain post) as Hc.
  unfold domains in Hd. cbn [In] in Hd.
  destruct Hd as [<-|[<-|[<-|[<-|[]]]]].
  - rewrite (contains_inner "" "instagram" ".com" _ Hc). reflexivity.
  - rewrite (contains_inner "" "instagram" ".fbcdn.net" _ Hc). reflexivity.
  - rewrite (contains_inner "" "fbcdn.net" "" _ Hc). apply orb_true_r.
  - rewrite (contains_inner "cdn" "instagram" ".com" _ Hc). reflexivity.
Qed.

Lemma stripped_match_facts (m : string) :
  url_shape m ->
  startswith (rstrip_chars trailing_punctuation m) "http" = true
  /\ no_space (rstrip_chars trailing_punctuation m) = true
  /\ Classifier.cdn_family (rstrip_chars trailing_punctuation m) = true.
Proof.
  intros (scheme & host & domain & tail & t & _ & _ & -> & Hs & Hh & Hd & Ht)
    %rstrip_url_shape.
  split; [destruct Hs as [->| ->]; reflexivity|]. split.
  - change (no_space ?x) with (all_chars (fun c => negb (isspace c)) x).
    rewrite !all_chars_app.
    rewrite (all_chars_impl _ _ tail url_char_no_space Ht).
    assert (all_chars (fun c => negb (isspace c)) scheme = true) as ->
      by (destruct Hs as [->| ->]; reflexivity).
    assert (all_chars (fun c => negb (isspace c)) domain = true) as ->.
    { unfold domains in Hd. cbn [In] in Hd.
      destruct Hd as [<-|[<-|[<-|[<-|[]]]]]; reflexivity. }
    assert (all_chars (fun c => negb (isspace c)) host = true) as ->.
    { destruct Hh as [->|(h & -> & _ & Hc)]; [reflexivity|].
      rewrite all_chars_app, (all_chars_impl _ _ h host_char_no_space Hc).
      reflexivity. }
    reflexivity.
  - replace (scheme +:+ "://" +:+ host +:+ domain +:+ tail)
      with ((scheme +:+ "://" +:+ host) +:+ domain +:+ tail)
      by (rewrite !str_app_assoc; reflexivity).
    apply domain_cdn_family, Hd.
Qed.

(** *** URLs without white space survive the file *)

Lemma no_space_cons (c : ascii) (s : string) :
  no_space (String c s) = negb (isspace c) && no_space s.
Proof. reflexivity. Qed.

Lemma no_space_lstrip (s : string) : no_space s = true -> lstrip s = s.
Proof.
  destruct s as [|c s]; [reflexivity|]. rewrite no_space_cons.
  intros [Hc%negb_true_iff _]%andb_prop. cbn [lstrip]. rewrite Hc. reflexivity.
Qed.

Lemma no_space_rstrip (s : string) : no_space s = true -> rstrip s = s.
Proof.
  induction s as [|c s IH]; [reflexivity|]. rewrite no_space_cons.
  intros [Hc%negb_true_iff Hs]%andb_prop. cbn [rstrip]. rewrite (IH Hs), Hc.
  destruct s; reflexivity.
Qed.

Lemma no_space_no_line_break (s : string) :
  no_space s = true -> no_line_break s = true.
Proof.
  induction s as [|c s IH]; [reflexivity|]. rewrite no_space_cons, no_line_break_cons.
  intros [Hc Hs]%andb_prop. rewrite (IH Hs), andb_true_r.
  destruct (Ascii.eqb c LF) eqn:E1;
    [apply Ascii.eqb_eq in E1; subst c; vm_compute in Hc; discriminate|].
  destruct (Ascii.eqb c CR) eqn:E2;
    [apply Ascii.eqb_eq in E2; subst c; vm_compute in Hc; discriminate|].
  reflexivity.
Qed.

Lemma no_space_storable (u : string) :
  startswith u "http" = true -> no_space u = true -> storable u = true.
Proof.
  unfold storable, strip. intros Hh Hn.
  rewrite Hh, (no_space_lstrip _ Hn), (no_space_rstrip _ Hn), String.eqb_refl,
    (no_space_no_line_break _ Hn).
  reflexivity.
Qed.

Lemma text_url_origin (content u : string) :
  u ∈ extract_urls_from_text content ->
  exists m pre rest,
    universal_newlines content = pre +:+ m +:+ rest
    /\ url_shape m /\ ends_run rest
    /\ u = rstrip_chars trailing_punctuation m
    /\ Classifier.is_full_size_image u = true.
Proof.
  unfold extract_urls_from_text. rewrite sorted_urls_elem, text_loop_elem.
  intros [H|(m & Hin & Hu & Hf)]; [exfalso; exact (not_elem_of_empty u H)|].
  apply findall_from_spec in Hin as (pre & rest & Hs & Hm).
  apply match_at_url in Hm as (rest' & Hr & Hshape & Hend).
  apply str_app_cancel_l in Hr as <-.
  exists m, pre, rest. auto.
Qed.

Lemma text_urls_storable (content : string) :
  Forall (fun u => storable u = true) (extract_urls_from_text content).
Proof.
  apply Forall_forall. intros u (m & _ & _ & _ & Hshape & _ & -> & _)%text_url_origin.
  destruct (stripped_match_facts m Hshape) as (Hh & Hn & _).
  apply no_space_storable; assumption.
Qed.

Lemma network_urls_full_size (content : string) :
  Forall (fun u => Classifier.is_full_size_image u = true)
         (extract_urls_from_network_export content).
Proof.
  apply Forall_forall. intros u. unfold extract_urls_from_network_export.
  rewrite sorted_urls_elem, export_loop_elem.
  intros [H|(line & _ & (_ & _ & _ & _ & _ & _ & _ & Hf))];
    [exfalso; exact (not_elem_of_empty u H) | exact Hf].
Qed.

Lemma text_urls_full_size (content : string) :
  Forall (fun u => Classifier.is_full_size_image u = true)
         (extract_urls_from_text content).
Proof.
  apply Forall_forall. intros u (m & _ & _ & _ & _ & _ & _ & Hf)%text_url_origin.
  exact Hf.
Qed.

Lemma extract_storable (m : method) (content : string) :
  Forall (fun u => storable u = true) (extract m content).
Proof.
  destruct m; cbn [extract].
  - apply extracted_urls_storable.
  - apply text_urls_storable.
  - destruct (length (extract_urls_from_network_export content) <? 5)%nat.
    + apply text_urls_storable.
    + apply extracted_urls_storable.
Qed.

Lemma extract_full_size (m : method) (content : string) :
  Forall (fun u => Classifier.is_full_size_image u = true) (extract m content).
Proof.
  destruct m; cbn [extract].
  - apply network_urls_full_size.
  - apply text_urls_full_size.
  - destruct (length (extract_urls_from_network_export content) <? 5)%nat.
    + apply text_urls_full_size.
    + apply network_urls_full_size.
Qed.

End TextFacts.

(** X19.  What [url_pattern.findall] finds.  Every match is a piece of the
    text that has the shape the pattern describes - the scheme [http] or
    [https], [://], an optional host prefix without [/] or white space that
    ends with a dot, one of the four domains, and a non-empty tail - and it
    ends where the URL characters end: what follows it, if anything, is
    white space, [<], [>], a quote or [)].  And [findall] finds nothing
    exactly when no piece of the text has that shape. *)
Theorem url_pattern_finds_urls (s : string) :
  (forall m,
      In m (Regex.findall TextExtractor.url_pattern s) ->
      exists pre rest,
        s = pre +:+ m +:+ rest
        /\ TextExtractor.url_shape m
        /\ TextExtractor.ends_run rest)
  /\ (Regex.findall TextExtractor.url_pattern s = []
      <-> ~ exists pre m rest,
              s = pre +:+ m +:+ rest /\ TextExtractor.url_shape m).
Proof.
  split.
  - intros m Hin. apply findall_from_spec in Hin as (pre & rest & Hs & Hm).
    apply match_at_url in Hm as (rest' & Hr & Hshape & Hend).
    apply str_app_cancel_l in Hr as <-.
    exists pre, rest. auto.
  - split.
    + intros Hnil (pre & m & rest & Hs & Hshape).
      destruct (url_shape_nonempty m Hshape) as (c & m' & ->).
      rewrite str_app_cons in Hs.
      pose proof (findall_nil _ pre s c (m' +:+ rest) Hs Hnil) as Hnone.
      apply url_pattern_lang in Hshape.
      destruct (match_at_complete _ _ rest Hshape) as (m1 & Hm1).
      rewrite str_app_cons in Hm1. congruence.
    + intros Hno.
      destruct (Regex.findall TextExtractor.url_pattern s) as [|m l] eqn:E;
        [reflexivity|].
      exfalso. apply Hno.
      assert (Hin : In m (Regex.findall TextExtractor.url_pattern s))
        by (rewrite E; left; reflexivity).
      apply findall_from_spec in Hin as (pre & rest & Hs & Hm).
      apply match_at_url in Hm as (_ & _ & Hshape & _). eauto.
Qed.

(** X20.  What [extract_urls_from_text] returns: a sorted list without
    duplicates, in which every URL is a match of the pattern in the text of
    the file, cut back by the trailing punctuation [.,;:!?)] it ended with.
    So every URL occurs in the text, starts with [http], holds no white
    space, ends with none of these punctuation marks, names a domain of the
    target CDN family, and passes [is_full_size_image]. *)
Theorem text_extraction_invariant (content : string) :
  StronglySorted String.le (TextExtractor.extract_urls_from_text content)
  /\ NoDup (TextExtractor.extract_urls_from_text content)
  /\ forall u,
      u ∈ TextExtractor.extract_urls_from_text content ->
      (exists t,
          TextExtractor.url_shape (u +:+ t)
          /\ TextExtractor.all_chars
               (TextExtractor.in_chars TextExtractor.trailing_punctuation) t = true
          /\ PyStr.contains (u +:+ t) (TextFile.universal_newlines content) = true)
      /\ PyStr.contains u (TextFile.universal_newlines content) = true
      /\ TextExtractor.rstrip_chars TextExtractor.trailing_punctuation u = u
      /\ PyStr.startswith u "http" = true
      /\ TextExtractor.no_space u = true
      /\ Classifier.cdn_family u = true
      /\ Classifier.is_full_size_image u = true.
Proof.
  split; [|split].
  - apply StronglySorted_merge_sort; apply _.
  - unfold TextExtractor.extract_urls_from_text, UrlStore.sorted_urls.
    rewrite merge_sort_Permutation. apply NoDup_elements.
  - intros u (m & pre & rest & Hs & Hshape & _ & Hu & Hf)%text_url_origin.
    destruct (rstrip_chars_split TextExtractor.trailing_punctuation m)
      as (t & Hm & Ht).
    rewrite <- Hu in Hm.
    assert (Hc : PyStr.contains (u +:+ t) (TextFile.universal_newlines content) = true)
      by (rewrite Hs, <- Hm; apply contains_middle).
    destruct (stripped_match_facts m Hshape) as (Hh & Hn & Hcdn).
    rewrite <- Hu in Hh, Hn, Hcdn. rewrite Hm in Hshape.
    split; [exists t; auto|].
    split; [exact (contains_app_l _ _ _ Hc)|].
    split; [rewrite Hu; apply rstrip_chars_idem|].
    auto.
Qed.

(** X21.  Whatever [--method] is chosen, the file that [main] writes reads
    back, in [download_images_from_file], as exactly the list that was
    found: the list is not empty, every URL in it passes
    [is_full_size_image], and the downloader's batch on the file is the
    batch on that list. *)
Theorem main_output_is_the_list
    (m : TextExtractor.method) (content f : string) :
  TextExtractor.main_output m content = Some f ->
  UrlStore.load_urls f = TextExtractor.extract m content
  /\ TextExtractor.extract m content <> []
  /\ Forall (fun u => Classifier.is_full_size_image u = true)
            (TextExtractor.extract m content)
  /\ forall rt env delay w,
      Downloader.download_images_from_file rt env f delay w
      = Downloader.download_urls rt env delay (TextExtractor.extract m content) w.
Proof.
  unfold TextExtractor.main_output. intros H.
  assert (Hf : f = UrlStore.save_urls_to_file (TextExtractor.extract m content)
               /\ TextExtractor.extract m content <> []).
  { destruct (TextExtractor.extract m content); [discriminate|].
    injection H as <-. split; [reflexivity | discriminate]. }
  destruct Hf as [-> Hne].
  pose proof (load_save _ (extract_storable m content)) as Hl.
  split; [exact Hl|]. split; [exact Hne|]. split; [apply extract_full_size|].
  intros rt env delay w. unfold Downloader.download_images_from_file.
  rewrite Hl. reflexivity.
Qed.

Lemma main_output_is_the_list_witness :
  UrlStore.load_urls
    (UrlStore.save_urls_to_file
       ["https://scontent.cdninstagram.com/v/t51.82787-15/11_22_33_n.jpg"])
  = TextExtractor.extract TextExtractor.Auto
      "Posted (https://scontent.cdninstagram.com/v/t51.82787-15/11_22_33_n.jpg).".
Proof.
  apply (proj1 (main_output_is_the_list TextExtractor.Auto
                  "Posted (https://scontent.cdninstagram.com/v/t51.82787-15/11_22_33_n.jpg)."
                  (UrlStore.save_urls_to_file
                     ["https://scontent.cdninstagram.com/v/t51.82787-15/11_22_33_n.jpg"])
                  ltac:(vm_compute; reflexivity))).
Defined.

(** ** From the scraper to the downloader *)

Section ScrapeFacts.
Import PyStr TextFile UrlStore.

Lemma strip_any_line (u : string) : strip (u +:+ String LF EmptyString) = strip u.
Proof.
  unfold strip. induction u as [|c u IH]; [reflexivity|].
  rewrite str_app_cons. cbn [lstrip]. destruct (isspace c); [exact IH|].
  rewrite <- str_app_cons. apply rstrip_line.
Qed.

Lemma load_saved_lines (urls : list string) :
  Forall (fun u => no_line_break u = true) urls ->
  load_urls (save_urls_to_file urls)
  = List.filter (fun u => startswith u "http") (map strip urls).
Proof.
  intros H. unfold load_urls.
  rewrite save_urls_text, (read_lines_text urls H), read_loop_filter, map_map.
  cbn [app]. f_equal. apply map_ext. intros u. apply strip_any_line.
Qed.

End ScrapeFacts.

(** X22.  The file that [scrape_instagram_account] writes, as
    [download_images_from_file] reads it.  When no discovered URL holds a
    line break, the downloader loads, in the file's sorted order, the
    stripped discovered URLs that start with [http], and only those: a URL
    that the two channels admitted but that has another scheme is written
    to the file and never downloaded. *)
Theorem scraped_file_as_the_downloader_reads_it
    (images : option (list Scraper.img)) (logs : option (list Scraper.log_entry))
    (f : string) :
  ScrapeAccount.urls_file images logs = Some f ->
  forallb UrlStore.no_line_break
    (UrlStore.sorted_urls (Scraper.discovered_urls images logs)) = true ->
  UrlStore.load_urls f
  = List.filter (fun u => PyStr.startswith u "http")
      (map PyStr.strip (UrlStore.sorted_urls (Scraper.discovered_urls images logs)))
  /\ (forall u,
        u ∈ UrlStore.load_urls f
        <-> exists v, v ∈ Scraper.discovered_urls images logs
                      /\ u = PyStr.strip v
                      /\ PyStr.startswith u "http" = true)
  /\ (length (UrlStore.load_urls f)
      <= size (Scraper.discovered_urls images logs))%nat.
Proof.
  unfold ScrapeAccount.urls_file. intros Hf Hnb.
  destruct (decide (Scraper.discovered_urls images logs = ∅)); [discriminate|].
  injection Hf as <-.
  change (fold_left _ ?l "") with (UrlStore.save_urls_to_file l).
  assert (Hl : UrlStore.load_urls
                 (UrlStore.save_urls_to_file
                    (UrlStore.sorted_urls (Scraper.discovered_urls images logs)))
               = List.filter (fun u => PyStr.startswith u "http")
                   (map PyStr.strip
                      (UrlStore.sorted_urls (Scraper.discovered_urls images logs)))).
  { apply load_saved_lines, Forall_forall. intros u Hu.
    apply list_elem_of_In in Hu. exact (proj1 (forallb_forall _ _) Hnb u Hu). }
  split; [exact Hl|]. split.
  - intros u. rewrite Hl, list_elem_of_In, filter_In, in_map_iff. split.
    + intros [(v & <- & Hv%list_elem_of_In%sorted_urls_elem) Hh]. eauto.
    + intros (v & Hv & -> & Hh). split; [|exact Hh].
      exists v. split; [reflexivity | apply list_elem_of_In, sorted_urls_elem, Hv].
  - rewrite Hl.
    etransitivity; [apply List.filter_length_le|].
    rewrite length_map. unfold UrlStore.sorted_urls.
    rewrite merge_sort_Permutation. reflexivity.
Qed.

Lemma scraped_file_as_the_downloader_reads_it_witness :
  UrlStore.load_urls
    (UrlStore.save_urls_to_file
       ["blob:https://www.instagram.com/0a1b";
        "https://scontent.cdninstagram.com/v/t51.82787-15/11_22_33_n.jpg"])
  = ["https://scontent.cdninstagram.com/v/t51.82787-15/11_22_33_n.jpg"].
Proof.
  apply (proj1 (scraped_file_as_the_downloader_reads_it
                  (Some [ {| Scraper.src := Scraper.AttrStr "blob:https://www.instagram.com/0a1b";
                             Scraper.srcset := Scraper.AttrNone |};
                          {| Scraper.src :=
                               Scraper.AttrStr
                                 "https://scontent.cdninstagram.com/v/t51.82787-15/11_22_33_n.jpg";
                             Scraper.srcset := Scraper.AttrNone |} ])
                  (Some [])
                  (UrlStore.save_urls_to_file
                     ["blob:https://www.instagram.com/0a1b";
                      "https://scontent.cdninstagram.com/v/t51.82787-15/11_22_33_n.jpg"])
                  ltac:(vm_compute; reflexivity) ltac:(vm_compute; reflexivity))).
Defined.
